(** * ApiManufacturerDiscoveryService: trust policy, response parser,
      batch planner and discovery orchestrator

    A shallow embedding of [synthesis_engine/api_manufacturer_discovery.py].

    Python [str] values are modelled as [string]: one [ascii] per code
    point, so the embedding covers text whose code points are below 256
    (ASCII and Latin-1).  On that range the character classes used by
    [str.strip], [str.lower] and [str.splitlines] are written out below as
    CPython defines them. *)

From Stdlib Require Import Ascii String NArith ZArith Bool Lia.
From stdpp Require Import base option list strings gmap sets sorting.

Local Open Scope N_scope.

(** ** Exceptions and fallible results *)

Inductive exn : Type :=
| ValueError
| IndexError.

Inductive res (A : Type) : Type :=
| Ok (a : A)
| Raise (e : exn).
Arguments Ok {A} a.
Arguments Raise {A} e.

Global Instance res_ret : MRet res := fun A a => Ok a.

Global Instance res_bind : MBind res := fun A B k m =>
  match m with
  | Ok a => k a
  | Raise e => Raise e
  end.

(** ** Python string primitives *)

Module Py.

Definition ord (c : ascii) : N := N_of_ascii c.
Definition chr (n : N) : ascii := ascii_of_N n.

Definition in_range (lo hi : N) (c : ascii) : bool :=
  (lo <=? ord c) && (ord c <=? hi).

(** [str.isspace] for one character, as used by [str.strip()]. *)
Definition is_whitespace (c : ascii) : bool :=
  in_range 9 13 c || in_range 28 32 c || (ord c =? 133) || (ord c =? 160).

(** The line boundaries of [str.splitlines()]. *)
Definition is_linebreak (c : ascii) : bool :=
  in_range 10 13 c || in_range 28 30 c || (ord c =? 133).

(** [str.lower()] on one character: A-Z and the Latin-1 capitals. *)
Definition lower_char (c : ascii) : ascii :=
  if in_range 65 90 c || (in_range 192 222 c && negb (ord c =? 215))
  then chr (ord c + 32)
  else c.

Fixpoint lower (s : string) : string :=
  match s with
  | EmptyString => EmptyString
  | String c s' => String (lower_char c) (lower s')
  end.

(** Truth value of a string: [bool(s)]. *)
Definition truthy (s : string) : bool :=
  match s with
  | EmptyString => false
  | String _ _ => true
  end.

(** [s.lstrip(chars)] / [s.rstrip(chars)] for a character class. *)
Fixpoint lstrip_with (p : ascii -> bool) (s : string) : string :=
  match s with
  | EmptyString => EmptyString
  | String c s' => if p c then lstrip_with p s' else s
  end.

Fixpoint rstrip_with (p : ascii -> bool) (s : string) : string :=
  match s with
  | EmptyString => EmptyString
  | String c s' =>
      match rstrip_with p s' with
      | EmptyString => if p c then EmptyString else String c EmptyString
      | r => String c r
      end
  end.

(** [s.strip()] *)
Definition strip (s : string) : string :=
  rstrip_with is_whitespace (lstrip_with is_whitespace s).

(** [c in s] for a single character [c]. *)
Fixpoint has_char (c : ascii) (s : string) : bool :=
  match s with
  | EmptyString => false
  | String d s' => Ascii.eqb d c || has_char c s'
  end.

(** [s.startswith(p)] *)
Definition startswith (s p : string) : bool := String.prefix p s.

(** [s.endswith(p)] *)
Fixpoint endswith (s p : string) : bool :=
  String.eqb s p ||
  match s with
  | EmptyString => false
  | String _ s' => endswith s' p
  end.

(** [a in b] on strings: [a] occurs in [b] as a substring. *)
Fixpoint contains (a b : string) : bool :=
  String.prefix a b ||
  match b with
  | EmptyString => false
  | String _ b' => contains a b'
  end.

(** Deleting every character of a class: [s.replace(c, '')] for each [c]
    of the class. *)
Fixpoint remove_chars (p : ascii -> bool) (s : string) : string :=
  match s with
  | EmptyString => EmptyString
  | String c s' => if p c then remove_chars p s' else String c (remove_chars p s')
  end.

(** [s.find(c)]: index of the first occurrence, [None] for -1. *)
Fixpoint find (c : ascii) (s : string) : option nat :=
  match s with
  | EmptyString => None
  | String d s' => if Ascii.eqb d c then Some 0%nat else S <$> find c s'
  end.

(** [s[:n]] and [s[n:]] *)
Fixpoint take (n : nat) (s : string) : string :=
  match n, s with
  | S n', String c s' => String c (take n' s')
  | _, _ => EmptyString
  end.

Fixpoint drop (n : nat) (s : string) : string :=
  match n, s with
  | S n', String _ s' => drop n' s'
  | _, _ => s
  end.

(** [all(p(c) for c in s)] *)
Fixpoint all_chars (p : ascii -> bool) (s : string) : bool :=
  match s with
  | EmptyString => true
  | String c s' => p c && all_chars p s'
  end.

(** [s.isascii()] *)
Definition isascii (s : string) : bool := all_chars (fun c => ord c <? 128) s.

(** The code points of [s]. *)
Fixpoint code_points (s : string) : list N :=
  match s with
  | EmptyString => []
  | String c s' => ord c :: code_points s'
  end.

(** [s.split(sep)] for a one-character separator. *)
Fixpoint split (sep : ascii) (s : string) : list string :=
  match s with
  | EmptyString => [EmptyString]
  | String c s' =>
      if Ascii.eqb c sep then EmptyString :: split sep s'
      else match split sep s' with
           | h :: t => String c h :: t
           | [] => [String c EmptyString]
           end
  end.

(** [s.splitlines()]: [after_cr] records that the previous character was a
    carriage return, whose line feed belongs to the same boundary. *)
Fixpoint splitlines_from (after_cr : bool) (s : string) : list string :=
  match s with
  | EmptyString => []
  | String c s' =>
      if after_cr && (ord c =? 10) then splitlines_from false s'
      else if is_linebreak c then EmptyString :: splitlines_from (ord c =? 13) s'
      else match splitlines_from false s' with
           | l :: ls => String c l :: ls
           | [] => [String c EmptyString]
           end
  end.

Definition splitlines (s : string) : list string := splitlines_from false s.

(** [sep.join(l)] *)
Fixpoint join (sep : string) (l : list string) : string :=
  match l with
  | [] => EmptyString
  | [s] => s
  | s :: l' => s +:+ sep +:+ join sep l'
  end.

(** [l[1:-1]] *)
Definition slice_1_m1 {A : Type} (l : list A) : list A :=
  List.skipn 1 (List.firstn (length l - 1) l).

(** [l[i]], raising [IndexError] out of range. *)
Definition index {A : Type} (l : list A) (i : nat) : res A :=
  match l !! i with
  | Some x => Ok x
  | None => Raise IndexError
  end.

End Py.

(** ** [urllib.parse.urlparse], as far as the service reads its result

    The service reads only [scheme] and [netloc] of the parse result, so the
    result type keeps these two components.  What [urlsplit] computes for
    the others (path, query, fragment) cannot change them or raise; its
    final check of the network location, [_checknetloc], can raise and is
    part of the model. *)

Module Urllib.
Import Py.

Record ParseResult : Type := mkParseResult {
  scheme : string;
  netloc : string;
}.

(** [_WHATWG_C0_CONTROL_OR_SPACE] *)
Definition is_c0_control_or_space (c : ascii) : bool := ord c <=? 32.

(** [_UNSAFE_URL_BYTES_TO_REMOVE]: tab, carriage return, line feed. *)
Definition is_unsafe_url_byte (c : ascii) : bool :=
  (ord c =? 9) || (ord c =? 13) || (ord c =? 10).

(** [c.isascii() and c.isalpha()] *)
Definition is_ascii_alpha (c : ascii) : bool :=
  in_range 65 90 c || in_range 97 122 c.

(** [c in scheme_chars]: letters, digits and [+-.] *)
Definition is_scheme_char (c : ascii) : bool :=
  is_ascii_alpha c || in_range 48 57 c ||
  (ord c =? 43) || (ord c =? 45) || (ord c =? 46).

(** [url.find(c, start)] *)
Definition find_from (c : ascii) (start : nat) (url : string) : option nat :=
  (fun i => (start + i)%nat) <$> find c (drop start url).

(** [_splitnetloc(url, start)]: the earliest of the delimiters [/?#] at or
    after [start] ends the network location. *)
Definition _splitnetloc (url : string) (start : nat) : string * string :=
  let delim :=
    fold_left
      (fun delim c =>
         match find_from c start url with
         | Some wdelim => Nat.min delim wdelim
         | None => delim
         end)
      ["/"; "?"; "#"]%char (String.length url) in
  (take (delim - start) (drop start url), drop delim url).

(** [p(s[0])], false on the empty string. *)
Definition first_is (p : ascii -> bool) (s : string) : bool :=
  match s with
  | String c _ => p c
  | EmptyString => false
  end.

(** The scheme prefix of [urlsplit]: [url[:i].lower(), url[i+1:]] when the
    text before the first colon is a well-formed scheme. *)
Definition split_scheme (url : string) : string * string :=
  match find ":" url with
  | Some i =>
      if (0 <? i)%nat && first_is is_ascii_alpha url &&
         all_chars is_scheme_char (take i url)
      then (lower (take i url), drop (S i) url)
      else (EmptyString, url)
  | None => (EmptyString, url)
  end.

(** What [urlsplit] takes from tables that are not written out here.

    [check_bracketed_netloc] is what it does with a network location that
    holds both an opening and a closing bracket: [true] when it is accepted,
    [false] when [ValueError] is raised.  This differs between CPython
    releases: none before 3.11.4 validates it, later ones validate the text
    between the brackets as an IPv6 or IPvFuture literal
    ([_check_bracketed_host]), the latest also what surrounds the brackets
    ([_check_bracketed_netloc]).

    [normalize_NFKC] is [unicodedata.normalize('NFKC', s)], whose result is
    given by its code points: it can leave the range of [string]. *)
Record Tables : Type := mkTables {
  check_bracketed_netloc : string -> bool;
  normalize_NFKC : string -> list N;
}.

(** The characters [_checknetloc] deletes before it normalises:
    [@], [:], [#] and [?]. *)
Definition is_netloc_punctuation (c : ascii) : bool :=
  Ascii.eqb c "@" || Ascii.eqb c ":" || Ascii.eqb c "#" || Ascii.eqb c "?".

(** The code points of ['/?#@:'], which must not appear by normalisation. *)
Definition netloc_breakers : list N := code_points "/?#@:".

Section Urlsplit.

Variable tables : Tables.

(** [_checknetloc(netloc)]: a network location that is not ASCII must not
    turn, under NFKC normalisation, into text that holds a delimiter. *)
Definition _checknetloc (netloc : string) : res unit :=
  if negb (truthy netloc) || isascii netloc then Ok tt
  else
    let n := remove_chars is_netloc_punctuation netloc in
    let netloc2 := normalize_NFKC tables n in
    if bool_decide (code_points n = netloc2) then Ok tt
    else if existsb (fun c => bool_decide (c ∈ netloc2)) netloc_breakers
         then Raise ValueError
         else Ok tt.

Definition urlsplit (url : string) : res ParseResult :=
  let url := lstrip_with is_c0_control_or_space url in
  let url := remove_chars is_unsafe_url_byte url in
  let '(scheme, url) := split_scheme url in
  '(netloc, url) ←
    (if String.eqb (take 2 url) "//" then
       let '(netloc, url) := _splitnetloc url 2 in
       if (has_char "[" netloc && negb (has_char "]" netloc)) ||
          (has_char "]" netloc && negb (has_char "[" netloc))
       then Raise ValueError
       else if has_char "[" netloc && has_char "]" netloc then
         if check_bracketed_netloc tables netloc
         then Ok (netloc, url)
         else Raise ValueError
       else Ok (netloc, url)
     else Ok (EmptyString, url));
  _ ← _checknetloc netloc;
  Ok (mkParseResult scheme netloc).

Definition urlparse (url : string) : res ParseResult := urlsplit url.

End Urlsplit.

End Urllib.

(** ** Trust policy *)

(** [self.trusted_domains] *)
Definition trusted_domains : gset string :=
  list_to_set
    [ "pharmacompass.com"; "pharmaoffer.com"; "orangebook.fda.gov"; "fda.gov";
      "ema.europa.eu"; "cdsco.gov.in"; "who.int"; "dcat.org";
      "scrip.pharmaintelligence.informa.com" ].

Section TrustPolicy.

Variable tables : Urllib.Tables.

Definition _is_valid_source (url : string) : res bool :=
  if negb (Py.truthy url) then Ok false
  else
    parsed ← Urllib.urlparse tables (Py.strip url);
    if negb (String.eqb (Py.lower (Urllib.scheme parsed)) "https") then Ok false
    else
      let domain := Py.lower (Urllib.netloc parsed) in
      Ok (existsb
            (fun trusted =>
               String.eqb domain trusted ||
               Py.endswith domain ("." +:+ trusted))
            (elements trusted_domains)).

End TrustPolicy.

(** ** Response parser *)

(** The dict built for every accepted table row. *)
Record ManufacturerRecord : Type := mkRecord {
  api_name : string;
  manufacturer : string;
  country : string;
  usdmf : string;
  cep : string;
  source_name : string;
  source_url : string;
}.

(** [x in ["yes", "t"]] *)
Definition in_yes_t (x : string) : bool := String.eqb x "yes" || String.eqb x "t".

Section Parser.

Variable tables : Urllib.Tables.

(** [raw_parts = [p.strip() for p in line.split("|")]] *)
Definition raw_parts_of (line : string) : list string :=
  Py.strip <$> Py.split "|" line.

(** The test that selects candidate table rows. *)
Definition is_table_row (line : string) : bool :=
  Py.has_char "|" line &&
  negb (Py.startswith (Py.lower line) "| manufacturers") &&
  negb (Py.startswith line "|---").

(** One iteration of [for line in lines]: [continue] leaves the
    accumulator as it is, [append] extends it at the end. *)
Definition extract_line (api_name country : string) (existing_lower : gset string)
    (manufacturers : list ManufacturerRecord) (line : string)
  : res (list ManufacturerRecord) :=
  if is_table_row line then
    let raw_parts := raw_parts_of line in
    if (length raw_parts <? 8)%nat then Ok manufacturers
    else
      let parts := Py.slice_1_m1 raw_parts in
      if (length parts <? 6)%nat then Ok manufacturers
      else
        manu_name ← Py.index parts 0;
        let manu_lower := Py.lower manu_name in
        if bool_decide (manu_lower ∈ existing_lower) then Ok manufacturers
        else
          country_val ← Py.index parts 1;
          parts2 ← Py.index parts 2;
          let usdmf := if in_yes_t (Py.lower (Py.strip parts2)) then "Yes" else "No" in
          parts3 ← Py.index parts 3;
          let cep := if in_yes_t (Py.lower (Py.strip parts3)) then "Yes" else "No" in
          source_name ← Py.index parts 4;
          source_url ← Py.index parts 5;
          valid ← _is_valid_source tables source_url;
          if negb valid then Ok manufacturers
          else if Py.contains (Py.lower country) (Py.lower country_val) then
            Ok (manufacturers ++
                [ {| api_name := api_name;
                     manufacturer := manu_name;
                     country := country_val;
                     usdmf := usdmf;
                     cep := cep;
                     source_name := source_name;
                     source_url := source_url |} ])
          else Ok manufacturers
  else Ok manufacturers.

(** [for line in lines: ...], stopping at the first exception. *)
Fixpoint extract_lines (api_name country : string) (existing_lower : gset string)
    (manufacturers : list ManufacturerRecord) (lines : list string)
  : res (list ManufacturerRecord) :=
  match lines with
  | [] => Ok manufacturers
  | line :: lines' =>
      manufacturers ← extract_line api_name country existing_lower manufacturers line;
      extract_lines api_name country existing_lower manufacturers lines'
  end.

(** [existing_lower = {name.lower() for name in skip_batch}] *)
Definition existing_lower_of (skip_batch : list string) : gset string :=
  list_to_set (Py.lower <$> skip_batch).

(** [markdown_output] is [None] or a string. *)
Definition _extract_manufacturers (markdown_output : option string)
    (api_name country : string) (skip_batch : list string)
  : res (list ManufacturerRecord) :=
  match markdown_output with
  | None => Ok []
  | Some text =>
      if negb (Py.truthy text) then Ok []
      else
        let lines := Py.splitlines text in
        let existing_lower := existing_lower_of skip_batch in
        extract_lines api_name country existing_lower [] lines
  end.

End Parser.

(** ** Query planner *)

(** [range(0, stop, step)] *)
Definition range_step (stop step : nat) : list nat :=
  (fun k => k * step)%nat <$> seq 0 ((stop + (step - 1)) / step)%nat.

(** [l[i:j]] for [i <= j] *)
Definition slice {A : Type} (l : list A) (i j : nat) : list A :=
  take (j - i)%nat (drop i l).

(** [[skip_list[i : i + 30] for i in range(0, len(skip_list), 30)] or [[]]] *)
Definition batches_of (skip_list : list string) : list (list string) :=
  match (fun i => slice skip_list i (i + 30)) <$> range_step (length skip_list) 30 with
  | [] => [[]]
  | batches => batches
  end.

(** The variable parts of the prompt of [_run_groq_extraction]; the text
    around them is fixed. *)
Record Prompt : Type := mkPrompt {
  prompt_api_name : string;
  prompt_country : string;
  skip_clause : string;
  trusted_clause : string;
}.

(** [sorted(xs)] on strings: ascending code-point order. *)
Definition sorted (xs : list string) : list string := merge_sort String.le xs.

Definition prompt_for (api_name country : string) (skip_list : list string) : Prompt :=
  {| prompt_api_name := api_name;
     prompt_country := country;
     skip_clause :=
       match skip_list with
       | [] => "None"
       | _ => Py.join ", " (take 10 skip_list)
       end;
     trusted_clause := Py.join ", " (sorted (elements trusted_domains)) |}.

(** ** External collaborators and the orchestrator *)

(** A row as the record store returns it: a JSON object, read by the
    service only through [rec.get(key)]. *)
Abbreviation StoreRow := (gmap string string).

(** The row posted to the REST interface. *)
Record Payload : Type := mkPayload {
  payload_record : ManufacturerRecord;
  source_file : string;
  imported_at : string;
}.

(** What [chat.completions.create] can do. *)
Inductive GroqReply : Type :=
| GroqRaised
| GroqNoChoices
| GroqContent (content : option string).

(** [{"inserted": n, "rows": rows}] *)
Record InsertResult : Type := mkInsertResult {
  inserted : Z;
  rows : list StoreRow;
}.

(** The dict returned by [discover]. *)
Inductive DiscoveryResult : Type :=
| Failure (error : string)
| Success (existing_records new_records all_records : list StoreRow)
          (inserted_count : Z).

Definition success (r : DiscoveryResult) : bool :=
  match r with
  | Failure _ => false
  | Success _ _ _ _ => true
  end.

(** Every call that leaves the process, in the order it is made. *)
Inductive Event : Type :=
| EvSleep (seconds : nat)
| EvGroq (prompt : Prompt)
| EvRestGet (api_name country : string)
| EvServiceQuery (api_name country : string)
| EvRestPost (payload : list Payload)
| EvServiceInsert (records : list ManufacturerRecord) (source_label : string).

Definition is_fetch (e : Event) : bool :=
  match e with
  | EvRestGet _ _ | EvServiceQuery _ _ => true
  | _ => false
  end.

Definition is_insert (e : Event) : bool :=
  match e with
  | EvRestPost _ | EvServiceInsert _ _ => true
  | _ => false
  end.

Definition groq_prompt (e : Event) : option Prompt :=
  match e with
  | EvGroq p => Some p
  | _ => None
  end.

Section Discovery.

(** The state of everything outside the process: the record store, the
    model service, the clock. *)
Context {W : Type}.

Variable tables : Urllib.Tables.

(** [requests.get] / [requests.post] against the REST interface followed by
    [raise_for_status] and [json()]: [None] when any of them raises. *)
Variable requests_get : string -> string -> W -> option (list StoreRow) * W.
Variable requests_post : list Payload -> W -> option (list StoreRow) * W.
(** [datetime.utcnow().isoformat()] *)
Variable utcnow : W -> string.

(** The injected record store, with the two operations the service calls. *)
Record ManufacturerService : Type := mkManufacturerService {
  query : string -> string -> W -> list StoreRow * W;
  insert_records : list ManufacturerRecord -> string -> W -> InsertResult * W;
}.

(** The attributes of [self] set by [__init__]. *)
Record Service : Type := mkService {
  manufacturer_service : ManufacturerService;
  groq_client : option (Prompt -> W -> GroqReply * W);
  supabase_url : string;
  supabase_headers : option string;
}.

Record St : Type := mkSt {
  world : W;
  trace : list Event;
}.

Definition M (A : Type) : Type := St -> A * St.

Definition ret {A : Type} (a : A) : M A := fun s => (a, s).
Definition bind {A B : Type} (m : M A) (k : A -> M B) : M B :=
  fun s => let '(a, s') := m s in k a s'.

(** Perform an outside call: log it, then let the world answer. *)
Definition call {A : Type} (e : Event) (f : W -> A * W) : M A :=
  fun s =>
    let '(a, w') := f (world s) in
    (a, {| world := w'; trace := trace s ++ [e] |}).

Notation "x <~ m ;; k" := (bind m (fun x => k))
  (at level 100, m at next level, right associativity).

Variable self : Service.

Definition _use_supabase : bool :=
  match supabase_headers self with
  | Some _ => Py.truthy (supabase_url self)
  | None => false
  end.

Definition _fetch_existing_records (api_name country : string) : M (list StoreRow) :=
  let fallback :=
    call (EvServiceQuery api_name country)
         (query (manufacturer_service self) api_name country) in
  if _use_supabase then
    response <~ call (EvRestGet api_name country) (requests_get api_name country) ;;
    match response with
    | Some json => ret json
    | None => fallback
    end
  else fallback.

Definition _insert_records (records : list ManufacturerRecord) (source_label : string)
  : M InsertResult :=
  match records with
  | [] => ret {| inserted := 0; rows := [] |}
  | _ =>
      let fallback :=
        call (EvServiceInsert records source_label)
             (insert_records (manufacturer_service self) records source_label) in
      if _use_supabase then
        fun s =>
          let import_ts := utcnow (world s) in
          let payload :=
            (fun rec => {| payload_record := rec;
                           source_file := source_label;
                           imported_at := import_ts |}) <$> records in
          (response <~ call (EvRestPost payload) (requests_post payload) ;;
           match response with
           | Some data => ret {| inserted := Z.of_nat (length data); rows := data |}
           | None => fallback
           end) s
      else fallback
  end.

Definition _run_groq_extraction (api_name country : string) (skip_list : list string)
  : M (option string) :=
  match groq_client self with
  | None => ret None
  | Some create =>
      let prompt := prompt_for api_name country skip_list in
      response <~ call (EvGroq prompt) (create prompt) ;;
      match response with
      | GroqContent content => ret content
      | GroqNoChoices => ret None
      | GroqRaised => ret None
      end
  end.

Definition _discover_with_groq (api_name country : string) (skip_batch : list string)
  : M (list ManufacturerRecord) :=
  match groq_client self with
  | None => ret []
  | Some _ =>
      _ <~ call (EvSleep 1) (fun w => (tt, w)) ;;
      groq_output <~ _run_groq_extraction api_name country skip_batch ;;
      match groq_output with
      | Some text =>
          if Py.truthy text then
            match _extract_manufacturers tables
                    groq_output api_name country skip_batch with
            | Ok manufacturers => ret manufacturers
            | Raise _ => ret []
            end
          else ret []
      | None => ret []
      end
  end.

(** [for batch in batches: ... extend ... if discovered_records: break] *)
Fixpoint discover_batches (api_name country : string)
    (discovered_records : list ManufacturerRecord) (batches : list (list string))
  : M (list ManufacturerRecord) :=
  match batches with
  | [] => ret discovered_records
  | batch :: batches' =>
      found <~ _discover_with_groq api_name country batch ;;
      let discovered_records := discovered_records ++ found in
      match discovered_records with
      | _ :: _ => ret discovered_records
      | [] => discover_batches api_name country discovered_records batches'
      end
  end.

(** The name a stored row contributes to the skip list, when its
    [manufacturer] is present and non-empty. *)
Definition skip_name (rec : StoreRow) : option string :=
  match rec !! "manufacturer" with
  | Some m => if Py.truthy m then Some (Py.lower (Py.strip m)) else None
  | None => None
  end.

Definition skip_list_of (existing_records : list StoreRow) : list string :=
  sorted (elements (list_to_set (omap skip_name existing_records) : gset string)).

Definition discover (api_name country : option string) : M DiscoveryResult :=
  let api_name := Py.strip (default EmptyString api_name) in
  let country := Py.strip (default EmptyString country) in
  if negb (Py.truthy api_name) || negb (Py.truthy country) then
    ret (Failure "API name and country are required for discovery.")
  else
    existing_records <~ _fetch_existing_records api_name country ;;
    let skip_list := skip_list_of existing_records in
    let batches := batches_of skip_list in
    discovered_records <~ discover_batches api_name country [] batches ;;
    outcome <~
      match discovered_records with
      | _ :: _ =>
          insert_result <~ _insert_records discovered_records "groq_discovery" ;;
          ret (rows insert_result, inserted insert_result)
      | [] => ret ([], 0%Z)
      end ;;
    let '(newly_inserted, inserted_count) := outcome in
    refreshed <~ _fetch_existing_records api_name country ;;
    ret (Success existing_records newly_inserted refreshed inserted_count).

(** *** Notions used to state what a run does *)

(** The batches of [batches], tried one after the other from state [s],
    all yield nothing and leave the state [s']. *)
Inductive Quiet (api_name country : string)
  : list (list string) -> St -> St -> Prop :=
| Quiet_nil s : Quiet api_name country [] s s
| Quiet_cons batch batches s s1 s2 :
    _discover_with_groq api_name country batch s = ([], s1) ->
    Quiet api_name country batches s1 s2 ->
    Quiet api_name country (batch :: batches) s s2.

(** The prompts sent when every batch of [batches] is tried. *)
Definition model_prompts (api_name country : string) (batches : list (list string))
  : list Prompt :=
  match groq_client self with
  | Some _ => prompt_for api_name country <$> batches
  | None => []
  end.

(** A read of the store leaves the world as it is: neither the REST query
    nor the query of the injected service changes anything outside the
    process, and nothing else does while they run. *)
Definition reads_leave_world : Prop :=
  (forall api_name country w, (requests_get api_name country w).2 = w) /\
  (forall api_name country w,
     (query (manufacturer_service self) api_name country w).2 = w).

End Discovery.

(** An input of [discover], [None] taken as the empty string, stripped. *)
Definition trimmed (x : option string) : string :=
  Py.strip (default EmptyString x).

(** The records an insert call hands to the store. *)
Definition inserts_exactly (records : list ManufacturerRecord) (e : Event) : Prop :=
  match e with
  | EvRestPost payload => payload_record <$> payload = records
  | EvServiceInsert records' _ => records' = records
  | _ => True
  end.

(** ** Specification-side notions *)

(** The url as [urlsplit] sees it once [_is_valid_source] has stripped it:
    leading C0 controls and spaces dropped, tab, CR and LF deleted. *)
Definition url_cleaned (url : string) : string :=
  Py.remove_chars Urllib.is_unsafe_url_byte
    (Py.lstrip_with Urllib.is_c0_control_or_space (Py.strip url)).

(** The characters that end the network location. *)
Definition is_netloc_delim (c : ascii) : bool :=
  Ascii.eqb c "/" || Ascii.eqb c "?" || Ascii.eqb c "#".

Definition no_netloc_delim (c : ascii) : bool := negb (is_netloc_delim c).

(** The network location at the head of [w], and what follows it. *)
Fixpoint netloc_span (w : string) : string :=
  match w with
  | EmptyString => EmptyString
  | String c w' => if is_netloc_delim c then EmptyString else String c (netloc_span w')
  end.

Fixpoint netloc_rest (w : string) : string :=
  match w with
  | EmptyString => EmptyString
  | String c w' => if is_netloc_delim c then w else netloc_rest w'
  end.

(** A network location without brackets, or with a bracketed host that
    [urlsplit] accepts. *)
Definition brackets_accepted (tables : Urllib.Tables) (nl : string) : Prop :=
  (Py.has_char "[" nl = false ∧ Py.has_char "]" nl = false) ∨
  (Py.has_char "[" nl = true ∧ Py.has_char "]" nl = true ∧
   Urllib.check_bracketed_netloc tables nl = true).

(** A network location that passes the NFKC check of [urlsplit]: it is
    ASCII, or its NFKC form, taken with [@], [:], [#] and [?] set aside, is
    the text itself or holds none of [/], [?], [#], [@] and [:]. *)
Definition nfkc_accepted (tables : Urllib.Tables) (nl : string) : Prop :=
  Py.isascii nl = true ∨
  let n := Py.remove_chars Urllib.is_netloc_punctuation nl in
  Urllib.normalize_NFKC tables n = Py.code_points n ∨
  ∀ c, c ∈ Urllib.netloc_breakers → c ∉ Urllib.normalize_NFKC tables n.

(** [h] is a trusted domain or ends with a dot followed by one. *)
Definition trusted_host (h : string) : Prop :=
  ∃ t, t ∈ trusted_domains ∧ (h = t ∨ ∃ sub, h = sub +:+ "." +:+ t).

(** What [_is_valid_source] accepts: after the cleaning, a scheme that
    lower-cases to [https], [://], a network location that runs up to the
    first [/], [?] or [#], passes the bracket check and the NFKC check and,
    lower-cased, is a trusted host. *)
Definition accepted_url (tables : Urllib.Tables) (url : string) : Prop :=
  ∃ sch nl rest,
    url_cleaned url = sch +:+ "://" +:+ nl +:+ rest ∧
    Py.lower sch = "https" ∧
    Py.all_chars no_netloc_delim nl = true ∧
    (rest = EmptyString ∨ ∃ c r, rest = String c r ∧ is_netloc_delim c = true) ∧
    brackets_accepted tables nl ∧
    nfkc_accepted tables nl ∧
    trusted_host (Py.lower nl).

(** The fields of a candidate row: [parts = raw_parts[1:-1]]. *)
Definition row_fields (line : string) : list string :=
  Py.slice_1_m1 (raw_parts_of line).

(** [x] is ["yes"] or ["t"] once trimmed and lower-cased. *)
Definition affirmed (x : string) : Prop :=
  Py.lower (Py.strip x) = "yes" ∨ Py.lower (Py.strip x) = "t".

(** [r] is the record the parser builds from the table row [line], and the
    row passes every filter. *)
Record row_accepted (tables : Urllib.Tables)
    (api country_query : string) (existing_lower : gset string)
    (line : string) (r : ManufacturerRecord) : Prop := {
  accepted_is_row : is_table_row line = true;
  accepted_segments : (8 ≤ length (raw_parts_of line))%nat;
  accepted_api_name : api_name r = api;
  accepted_manufacturer : row_fields line !! 0%nat = Some (manufacturer r);
  accepted_not_skipped : Py.lower (manufacturer r) ∉ existing_lower;
  accepted_country : row_fields line !! 1%nat = Some (country r);
  accepted_usdmf :
    ∃ p, row_fields line !! 2%nat = Some p ∧
         usdmf r = if in_yes_t (Py.lower (Py.strip p)) then "Yes" else "No";
  accepted_cep :
    ∃ p, row_fields line !! 3%nat = Some p ∧
         cep r = if in_yes_t (Py.lower (Py.strip p)) then "Yes" else "No";
  accepted_source_name : row_fields line !! 4%nat = Some (source_name r);
  accepted_source_url : row_fields line !! 5%nat = Some (source_url r);
  accepted_trusted : _is_valid_source tables (source_url r) = Ok true;
  accepted_country_match :
    Py.contains (Py.lower country_query) (Py.lower (country r)) = true;
}.

(** [rs] are records built from accepted rows of [lines], one per row at
    most, in the order of the rows. *)
Inductive Extracted (tables : Urllib.Tables)
    (api country_query : string) (existing_lower : gset string)
  : list string -> list ManufacturerRecord -> Prop :=
| Extracted_nil :
    Extracted tables api country_query existing_lower [] []
| Extracted_skip line lines rs :
    Extracted tables api country_query existing_lower lines rs ->
    Extracted tables api country_query existing_lower (line :: lines) rs
| Extracted_keep line lines r rs :
    row_accepted tables api country_query existing_lower line r ->
    Extracted tables api country_query existing_lower lines rs ->
    Extracted tables api country_query existing_lower
      (line :: lines) (r :: rs).

(** The lines the parser iterates over. *)
Definition lines_of (markdown_output : option string) : list string :=
  match markdown_output with
  | Some text => Py.splitlines text
  | None => []
  end.

(** Every character of [a] occurs in [b]. *)
Definition chars_sub (a b : string) : Prop :=
  ∀ c, Py.has_char c a = true → Py.has_char c b = true.

(** No square bracket occurs in [s]. *)
Definition bracket_free (s : string) : Prop :=
  Py.has_char "[" s = false ∧ Py.has_char "]" s = false.

(** No character beyond ASCII and no square bracket occurs in [s]. *)
Definition plain_ascii (s : string) : Prop :=
  Py.isascii s = true ∧ bracket_free s.

(** [unicodedata.normalize('NFKC', s)] on code points below 256, where it
    works character by character: fourteen characters have a compatibility
    form, every other one stays as it is. *)
Definition nfkc_latin1_char (c : ascii) : list N :=
  match Py.ord c with
  | 160 => [32]
  | 168 => [32; 776]
  | 170 => [97]
  | 175 => [32; 772]
  | 178 => [50]
  | 179 => [51]
  | 180 => [32; 769]
  | 181 => [956]
  | 184 => [32; 807]
  | 185 => [49]
  | 186 => [111]
  | 188 => [49; 8260; 52]
  | 189 => [49; 8260; 50]
  | 190 => [51; 8260; 52]
  | n => [n]
  end.

Fixpoint nfkc_latin1 (s : string) : list N :=
  match s with
  | EmptyString => []
  | String c s' => nfkc_latin1_char c ++ nfkc_latin1 s'
  end.

(** The tables of CPython releases before 3.11.4, which accept every
    network location that holds both brackets. *)
Definition lenient_tables : Urllib.Tables :=
  {| Urllib.check_bracketed_netloc := fun _ => true;
     Urllib.normalize_NFKC := nfkc_latin1 |}.

(** ** Sample data *)

Definition LF : string := String (Py.chr 10) EmptyString.

(** A model response: header, separator, a loosely matching row with an
    upper-case scheme, a row already known, a row with an http source, a
    line of prose, and a row with a lower-case country. *)
Definition sample_response : string :=
  "| Manufacturers | Country | USDMF | CEP | Source | URL |" +:+ LF +:+
  "|---|---|---|---|---|---|" +:+ LF +:+
  "| Acme | Indiana-based | T | unknown | FDA | HTTPS://www.fda.gov/x |" +:+ LF +:+
  "| Known | India | yes | no | FDA | https://fda.gov/x |" +:+ LF +:+
  "| Bad | India | yes | no | FDA | http://fda.gov/x |" +:+ LF +:+
  "Here are the manufacturers." +:+ LF +:+
  "| Zed | india (west) | no | yes | WHO | https://who.int/y |".

Definition acme_record : ManufacturerRecord :=
  {| api_name := "Metformin"; manufacturer := "Acme"; country := "Indiana-based";
     usdmf := "Yes"; cep := "No"; source_name := "FDA";
     source_url := "HTTPS://www.fda.gov/x" |}.

Definition zed_record : ManufacturerRecord :=
  {| api_name := "Metformin"; manufacturer := "Zed"; country := "india (west)";
     usdmf := "No"; cep := "Yes"; source_name := "WHO";
     source_url := "https://who.int/y" |}.

(** A row whose manufacturer cell is blank. *)
Definition blank_manufacturer_row : string :=
  "|  | India | yes | no | FDA | https://fda.gov/x |".

(** A row whose source url has an unbalanced bracket. *)
Definition unbalanced_bracket_row : string :=
  "| Acme | India | yes | no | FDA | https://[fda.gov/x |".

(** An in-memory record store: the world is the table, a query returns
    the whole table, an insert appends one row per record. *)
Definition stored_row (r : ManufacturerRecord) : StoreRow :=
  {[ "api_name" := api_name r; "manufacturer" := manufacturer r;
     "country" := country r ]}.

Definition table_service : @ManufacturerService (list StoreRow) :=
  {| query := fun _ _ table => (table, table);
     insert_records := fun records _ table =>
       ({| inserted := Z.of_nat (length records); rows := stored_row <$> records |},
        table ++ (stored_row <$> records)) |}.

Definition rest_down_get (_ _ : string) (table : list StoreRow)
  : option (list StoreRow) * list StoreRow := (None, table).

Definition rest_down_post (_ : list Payload) (table : list StoreRow)
  : option (list StoreRow) * list StoreRow := (None, table).

Definition fixed_clock (_ : list StoreRow) : string := "2024-01-01T00:00:00".

(** A service without REST credentials whose model answers every prompt
    with [sample_response], and the same service without a model client. *)
Definition sample_service : @Service (list StoreRow) :=
  {| manufacturer_service := table_service;
     groq_client := Some (fun _ table => (GroqContent (Some sample_response), table));
     supabase_url := EmptyString;
     supabase_headers := None |}.

(** The same service with a model that answers with a valid row followed
    by the row with the unbalanced bracket. *)
Definition bracket_service : @Service (list StoreRow) :=
  {| manufacturer_service := table_service;
     groq_client :=
       Some (fun _ table =>
               (GroqContent
                  (Some ("| Zed | India | no | yes | WHO | https://who.int/y |"
                         +:+ LF +:+ unbalanced_bracket_row)),
                table));
     supabase_url := EmptyString;
     supabase_headers := None |}.

Definition unconfigured_service : @Service (list StoreRow) :=
  {| manufacturer_service := table_service;
     groq_client := None;
     supabase_url := EmptyString;
     supabase_headers := None |}.

Definition known_row : StoreRow :=
  {[ "api_name" := "Metformin"; "manufacturer" := " Known "; "country" := "India" ]}.

Definition initial_state : @St (list StoreRow) :=
  {| world := [known_row]; trace := [] |}.

Definition sample_discover (self : @Service (list StoreRow))
    (api_name country : option string) :=
  discover lenient_tables rest_down_get rest_down_post fixed_clock
    self api_name country initial_state.

(** A store that another writer fills between two reads: a query answers
    with the table as it is, and the world moves on to a table that also
    holds [known_row]. *)
Definition concurrent_service : @ManufacturerService (list StoreRow) :=
  {| query := fun _ _ table => (table, table ++ [known_row]);
     insert_records := fun records _ table =>
       ({| inserted := Z.of_nat (length records); rows := stored_row <$> records |},
        table ++ (stored_row <$> records)) |}.

Definition concurrent_unconfigured_service : @Service (list StoreRow) :=
  {| manufacturer_service := concurrent_service;
     groq_client := None;
     supabase_url := EmptyString;
     supabase_headers := None |}.

(** ** Construction of the service *)

(** [a or b] on values that are [None] or a string. *)
Definition py_or (a b : option string) : option string :=
  match a with
  | Some x => if Py.truthy x then a else b
  | None => b
  end.

(** [bool(x)] for a value that is [None] or a string. *)
Definition truthy_opt (x : option string) : bool :=
  match x with
  | Some s => Py.truthy s
  | None => false
  end.

Definition is_slash (c : ascii) : bool := Ascii.eqb c "/".

(** The headers built from the key. *)
Definition headers_for (key : string) : gmap string string :=
  {[ "apikey" := key;
     "Authorization" := "Bearer " +:+ key;
     "Content-Type" := "application/json";
     "Accept" := "application/json" ]}.

Section Init.

Context {W : Type}.

(** [GroqClient(api_key=key)]: the request function of the client built
    for the key. *)
Variable GroqClient : string -> Prompt -> W -> GroqReply * W.

(** All attributes [__init__] sets, [trusted_domains] apart. *)
Record Attributes : Type := mkAttributes {
  attr_manufacturer_service : @ManufacturerService W;
  attr_groq_client : option (Prompt -> W -> GroqReply * W);
  attr_supabase_url : string;
  attr_supabase_key : option string;
  attr_supabase_table : string;
  attr_supabase_headers : option (gmap string string);
}.

(** [environ] is the process environment read by [os.getenv]. *)
Definition __init__ (manufacturer_service : @ManufacturerService W)
    (environ : gmap string string) : Attributes :=
  let groq_api_key := environ !! "GROQ_API_KEY" in
  let groq_client :=
    match groq_api_key with
    | Some key => if Py.truthy key then Some (GroqClient key) else None
    | None => None
    end in
  let supabase_url :=
    Py.rstrip_with is_slash (default EmptyString (environ !! "SUPABASE_URL")) in
  let supabase_key :=
    py_or (environ !! "SUPABASE_SERVICE_KEY") (environ !! "SUPABASE_ANON_KEY") in
  let supabase_table :=
    default "API_manufacturers" (environ !! "SUPABASE_MANUFACTURERS_TABLE") in
  let supabase_headers :=
    match supabase_key with
    | Some key =>
        if Py.truthy supabase_url && Py.truthy key
        then Some (headers_for key) else None
    | None => None
    end in
  {| attr_manufacturer_service := manufacturer_service;
     attr_groq_client := groq_client;
     attr_supabase_url := supabase_url;
     attr_supabase_key := supabase_key;
     attr_supabase_table := supabase_table;
     attr_supabase_headers := supabase_headers |}.

(** The attributes the methods read, as the record the methods take:
    of the headers it keeps the key they are built from. *)
Definition service_of (a : Attributes) : @Service W :=
  {| manufacturer_service := attr_manufacturer_service a;
     groq_client := attr_groq_client a;
     supabase_url := attr_supabase_url a;
     supabase_headers := attr_supabase_headers a ≫= (fun h => h !! "apikey") |}.

(** [f"{self.supabase_url}/rest/v1/{self.supabase_table}"] *)
Definition rest_endpoint (a : Attributes) : string :=
  attr_supabase_url a +:+ "/rest/v1/" +:+ attr_supabase_table a.

End Init.

(** The key [__init__] settles on: the service key when it is set and not
    empty, else the anonymous key. *)
Definition chosen_key (environ : gmap string string) : option string :=
  py_or (environ !! "SUPABASE_SERVICE_KEY") (environ !! "SUPABASE_ANON_KEY").

(** ** Further notions *)

(** A character that no cleaning step of the trust check touches and that
    neither ends nor brackets a network location. *)
Definition is_plain_host_char (c : ascii) : bool :=
  negb (Py.is_whitespace c) && negb (Urllib.is_c0_control_or_space c) &&
  negb (is_netloc_delim c) && negb (Ascii.eqb c "[") && negb (Ascii.eqb c "]").

(** The events of a sequence of model requests, each after its pause. *)
Definition paced (prompts : list Prompt) : list Event :=
  prompts ≫= (fun p => [EvSleep 1; EvGroq p]).

(** The records an outside call hands to the store. *)
Definition records_of (e : Event) : list ManufacturerRecord :=
  match e with
  | EvRestPost payload => payload_record <$> payload
  | EvServiceInsert records _ => records
  | _ => []
  end.

(** What a run guarantees of a record it stores: the requested ingredient
    name, a trusted source, the requested country inside the country field,
    and a name outside one of the batches. *)
Definition storable (tables : Urllib.Tables)
    (api country_query : string) (batches : list (list string))
    (r : ManufacturerRecord) : Prop :=
  api_name r = api ∧
  _is_valid_source tables (source_url r) = Ok true ∧
  Py.contains (Py.lower country_query) (Py.lower (country r)) = true ∧
  ∃ batch, batch ∈ batches ∧ Py.lower (manufacturer r) ∉ batch.

(** An environment with a REST url that ends in slashes, an anonymous key
    and a model key. *)
Definition sample_environ : gmap string string :=
  {[ "SUPABASE_URL" := "https://db.example.co//";
     "SUPABASE_ANON_KEY" := "anon-key";
     "SUPABASE_SERVICE_KEY" := EmptyString;
     "GROQ_API_KEY" := "model-key" ]}.

(** The rows posted for [records]: each record with the label and the
    time stamp. *)
Definition payload_of (source_label import_ts : string)
    (records : list ManufacturerRecord) : list Payload :=
  (fun rec => {| payload_record := rec; source_file := source_label;
                 imported_at := import_ts |}) <$> records.


Definition sample_client (_ : string) (_ : Prompt) (table : list StoreRow)
  : GroqReply * list StoreRow := (GroqContent (Some sample_response), table).

(** ** The model on concrete inputs *)

Module ModelChecks.

Example strip_spaces : Py.strip "  Acme Labs  " = "Acme Labs".
Proof. reflexivity. Qed.

Example lower_mixed : Py.lower "HTTPS://Fda.GOV" = "https://fda.gov".
Proof. reflexivity. Qed.

Example split_row : Py.split "|" "| a | b |" = [EmptyString; " a "; " b "; EmptyString].
Proof. reflexivity. Qed.

Example split_no_separator : Py.split "|" "prose" = ["prose"].
Proof. reflexivity. Qed.

(** A carriage return followed by a line feed is one boundary, and a final
    boundary opens no further line. *)
Example splitlines_crlf :
  Py.splitlines ("a" +:+ String (Py.chr 13) LF +:+ LF +:+ "b" +:+ LF)
  = ["a"; EmptyString; "b"].
Proof. reflexivity. Qed.

Example splitlines_empty : Py.splitlines EmptyString = [].
Proof. reflexivity. Qed.

Example contains_loose : Py.contains "india" "indiana-based" = true.
Proof. reflexivity. Qed.

Example endswith_subdomain : Py.endswith "www.fda.gov" ".fda.gov" = true.
Proof. reflexivity. Qed.

Example slice_edges : Py.slice_1_m1 [1; 2; 3; 4]%nat = [2; 3]%nat.
Proof. reflexivity. Qed.

Example urlparse_userinfo_port :
  Urllib.urlparse lenient_tables "HTTPS://User@Host:80/p?q#f"
  = Ok {| Urllib.scheme := "https"; Urllib.netloc := "User@Host:80" |}.
Proof. reflexivity. Qed.

Example urlparse_no_slashes :
  Urllib.urlparse lenient_tables "https:fda.gov"
  = Ok {| Urllib.scheme := "https"; Urllib.netloc := EmptyString |}.
Proof. reflexivity. Qed.

Example urlparse_no_scheme :
  Urllib.urlparse lenient_tables "fda.gov/x"
  = Ok {| Urllib.scheme := EmptyString; Urllib.netloc := EmptyString |}.
Proof. reflexivity. Qed.

(** A network location beyond ASCII goes through the NFKC check: the
    normal form of the fraction one quarter holds a fraction slash, which is
    not the solidus, so the check passes. *)
Example nfkc_one_quarter :
  nfkc_latin1 (String (Py.chr 188) EmptyString) = [49; 8260; 52].
Proof. reflexivity. Qed.

Example checknetloc_latin1 :
  Urllib._checknetloc lenient_tables ("a" +:+ String (Py.chr 188) "b@x") = Ok tt.
Proof. by vm_compute. Qed.

Example urlparse_latin1 :
  Urllib.urlparse lenient_tables ("https://caf" +:+ String (Py.chr 233) ".fda.gov/x")
  = Ok {| Urllib.scheme := "https";
          Urllib.netloc := "caf" +:+ String (Py.chr 233) ".fda.gov" |}.
Proof. by vm_compute. Qed.

Example trusted_subdomain :
  _is_valid_source lenient_tables "https://www.fda.gov/x" = Ok true.
Proof. by vm_compute. Qed.

Example untrusted_http :
  _is_valid_source lenient_tables "http://fda.gov" = Ok false.
Proof. by vm_compute. Qed.

Example untrusted_suffix :
  _is_valid_source lenient_tables "https://fda.gov.evil.com" = Ok false.
Proof. by vm_compute. Qed.

Example parse_sample :
  _extract_manufacturers lenient_tables (Some sample_response)
    "Metformin" "India" ["known"] = Ok [acme_record; zed_record].
Proof. by vm_compute. Qed.

Example skip_list_sorted_distinct :
  skip_list_of [known_row; stored_row acme_record; known_row] = ["acme"; "known"].
Proof. by vm_compute. Qed.

Example batches_of_sixty : length <$> batches_of (replicate 60 "acme") = [30; 30]%nat.
Proof. by vm_compute. Qed.

(** A run with the sample service: one fetch, the pause and the one model
    request, the insert of the two records found, the second fetch. *)
Example sample_run_trace :
  trace (sample_discover sample_service (Some " Metformin ") (Some "India")).2 =
  [ EvServiceQuery "Metformin" "India";
    EvSleep 1;
    EvGroq (prompt_for "Metformin" "India" ["known"]);
    EvServiceInsert [acme_record; zed_record] "groq_discovery";
    EvServiceQuery "Metformin" "India" ].
Proof. by vm_compute. Qed.

(** The model yields on the first of two batches: the second is never
    requested. *)
Example second_batch_not_requested :
  omap groq_prompt
    (trace (discover_batches lenient_tables sample_service
              "Metformin" "India" [] [["known"]; ["zed"]] initial_state).2)
  = [prompt_for "Metformin" "India" ["known"]].
Proof. by vm_compute. Qed.

(** The [ValueError] that leaves the parser is swallowed by the attempt,
    together with the valid row that came before it. *)
Example url_error_empties_the_batch :
  (_discover_with_groq lenient_tables bracket_service
     "Metformin" "India" ["known"] initial_state).1 = [].
Proof. by vm_compute. Qed.

End ModelChecks.

(** ** Facts about the string primitives *)

Module PyFacts.
Import Py.

Local Arguments String.append !_ _ / : simpl nomatch.



Lemma prefix_iff p s : String.prefix p s = true ↔ ∃ r, s = p +:+ r.
Proof.
  revert s. induction p as [|c p IH]; intros s; simpl.
  - split; [intros _; by exists s|by destruct s].
  - destruct s as [|d s].
    + split; [done|]. intros [r Hr]. discriminate.
    + simpl. destruct (ascii_dec c d) as [->|Hne].
      * rewrite IH. split; intros [r Hr]; exists r; simpl in *; congruence.
      * split; [done|]. intros [r Hr]. simpl in Hr. congruence.
Qed.

Lemma endswith_iff s p : endswith s p = true ↔ ∃ a, s = a +:+ p.
Proof.
  induction s as [|c s IH]; cbn [endswith].
  - rewrite orb_false_r, String.eqb_eq. split.
    + intros <-. by exists EmptyString.
    + intros [[|x a] Ha]; simpl in Ha; [done|discriminate].
  - rewrite orb_true_iff, String.eqb_eq, IH. split.
    + intros [<-|[a ->]]; [by exists EmptyString|by exists (String c a)].
    + intros [[|x a] Ha]; simpl in Ha; [by left|].
      right. exists a. congruence.
Qed.



Lemma find_app_fresh c a b :
  has_char c a = false → find c (a +:+ String c b) = Some (String.length a).
Proof.
  induction a as [|d a IH]; simpl.
  - intros _. by rewrite Ascii.eqb_refl.
  - intros [Hd Ha]%orb_false_iff. rewrite Hd, (IH Ha). done.
Qed.

Lemma take_app_length a b : take (String.length a) (a +:+ b) = a.
Proof. induction a as [|d a IH]; simpl; [by destruct b|]. by rewrite IH. Qed.



Lemma lower_char_idemp c : lower_char (lower_char c) = lower_char c.
Proof. destruct c as [[] [] [] [] [] [] [] []]; reflexivity. Qed.

Lemma lower_idemp s : lower (lower s) = lower s.
Proof.
  induction s as [|c s IH]; simpl; [done|].
  by rewrite lower_char_idemp, IH.
Qed.



Lemma lower_empty s : lower s = EmptyString → s = EmptyString.
Proof. by destruct s. Qed.

End PyFacts.

(** ** Facts about [urlsplit] *)

Module UrllibFacts.
Import Py PyFacts Urllib.

Local Arguments String.append !_ _ / : simpl nomatch.

Lemma drop_S_app_length a c b : drop (S (String.length a)) (a +:+ String c b) = b.
Proof. induction a as [|d a IH]; simpl; [by destruct b|]. exact IH. Qed.




(** A split into a delimiter-free head and a rest that is empty or starts
    with a delimiter is the split [netloc_span] / [netloc_rest] compute. *)
Lemma netloc_split_unique nl rest :
  all_chars no_netloc_delim nl = true →
  (rest = EmptyString ∨ ∃ c r, rest = String c r ∧ is_netloc_delim c = true) →
  netloc_span (nl +:+ rest) = nl ∧ netloc_rest (nl +:+ rest) = rest.
Proof.
  intros Hnl Hrest. induction nl as [|c nl IH]; simpl.
  - destruct Hrest as [->|(c & r & -> & Hc)]; simpl; [done|]. by rewrite Hc.
  - simpl in Hnl. apply andb_true_iff in Hnl as [Hc Hnl].
    unfold no_netloc_delim in Hc. apply negb_true_iff in Hc. rewrite Hc.
    destruct (IH Hnl) as [-> ->]. done.
Qed.

Lemma first_delim_index w :
  let d0 := String.length w in
  let d1 := match find "/" w with Some i => Nat.min d0 i | None => d0 end in
  let d2 := match find "?" w with Some i => Nat.min d1 i | None => d1 end in
  let d3 := match find "#" w with Some i => Nat.min d2 i | None => d2 end in
  d3 = String.length (netloc_span w).
Proof.
  induction w as [|c w IH]; [done|].
  cbn [find String.length netloc_span]. unfold is_netloc_delim.
  destruct (Ascii.eqb c "/") eqn:E1; [simpl; by repeat case_match|].
  destruct (Ascii.eqb c "?") eqn:E2; [simpl; repeat case_match; simplify_eq/=; lia|].
  destruct (Ascii.eqb c "#") eqn:E3; [simpl; repeat case_match; simplify_eq/=; lia|].
  simpl in *. rewrite <- IH.
  destruct (find "/" w), (find "?" w), (find "#" w); simpl; lia.
Qed.

Lemma take_length_span w : take (String.length (netloc_span w)) w = netloc_span w.
Proof.
  induction w as [|c w IH]; simpl; [done|].
  destruct (is_netloc_delim c); simpl; [done|]. by rewrite IH.
Qed.

Lemma drop_length_span w : drop (String.length (netloc_span w)) w = netloc_rest w.
Proof.
  induction w as [|c w IH]; simpl; [done|].
  destruct (is_netloc_delim c); simpl; [done|]. exact IH.
Qed.

Lemma splitnetloc_delim w :
  fold_left
    (fun delim c =>
       match find_from c 2 (String "/" (String "/" w)) with
       | Some wdelim => Nat.min delim wdelim
       | None => delim
       end)
    ["/"; "?"; "#"]%char (String.length (String "/" (String "/" w)))
  = (2 + String.length (netloc_span w))%nat.
Proof.
  unfold find_from. cbn [fold_left drop String.length].
  pose proof (first_delim_index w) as H. cbv zeta in H. rewrite <- H.
  destruct (find "/" w), (find "?" w), (find "#" w); simpl; lia.
Qed.

Lemma _splitnetloc_slashes w :
  _splitnetloc (String "/" (String "/" w)) 2 = (netloc_span w, netloc_rest w).
Proof.
  unfold _splitnetloc. rewrite splitnetloc_delim.
  replace (2 + String.length (netloc_span w) - 2)%nat
    with (String.length (netloc_span w)) by lia.
  cbn [drop Nat.add]. by rewrite take_length_span, drop_length_span.
Qed.

Lemma take2_slashes r :
  String.eqb (take 2 r) "//" = true → ∃ w, r = String "/" (String "/" w).
Proof.
  intros H%String.eqb_eq. destruct r as [|a [|b w]]; simpl in H; try done.
  exists w. congruence.
Qed.

Lemma alpha_of_lower_char c : is_ascii_alpha (lower_char c) = true → is_ascii_alpha c = true.
Proof. destruct c as [[] [] [] [] [] [] [] []]; vm_compute; done. Qed.

Lemma alpha_of_lower s :
  all_chars is_ascii_alpha (lower s) = true → all_chars is_ascii_alpha s = true.
Proof.
  induction s as [|c s IH]; simpl; [done|].
  intros [Hc Hs]%andb_true_iff. by rewrite (alpha_of_lower_char _ Hc), IH.
Qed.

Lemma alpha_scheme_char c :
  is_ascii_alpha c = true → is_scheme_char c = true ∧ Ascii.eqb c ":" = false.
Proof. destruct c as [[] [] [] [] [] [] [] []]; vm_compute; done. Qed.

Lemma alpha_scheme s :
  all_chars is_ascii_alpha s = true →
  all_chars is_scheme_char s = true ∧ has_char ":" s = false.
Proof.
  induction s as [|c s IH]; simpl; [done|].
  intros [Hc Hs]%andb_true_iff.
  destruct (alpha_scheme_char _ Hc) as [-> ->], (IH Hs) as [-> ->]. done.
Qed.

(** A scheme that lower-cases to [https] is what [split_scheme] cuts off. *)
Lemma split_scheme_https s0 r :
  lower s0 = "https" → split_scheme (s0 +:+ String ":" r) = ("https", r).
Proof.
  intros Hs0.
  assert (Halpha : all_chars is_ascii_alpha s0 = true).
  { apply alpha_of_lower. by rewrite Hs0. }
  destruct (alpha_scheme _ Halpha) as [Hsch Hcolon].
  unfold split_scheme. rewrite (find_app_fresh _ _ _ Hcolon).
  rewrite take_app_length, drop_S_app_length, Hsch, Hs0.
  destruct s0 as [|c0 s0']; [done|].
  simpl in Halpha. apply andb_true_iff in Halpha as [Hc0 _].
  simpl. by rewrite Hc0.
Qed.


End UrllibFacts.

(** ** The trust policy *)

Module TrustFacts.
Import Py PyFacts Urllib UrllibFacts.

Local Arguments String.append !_ _ / : simpl nomatch.


Lemma any_elements_iff (S : gset string) (f : string -> bool) :
  existsb f (elements S) = true ↔ ∃ t, t ∈ S ∧ f t = true.
Proof.
  rewrite existsb_exists. split; intros (t & Hin & Ht); exists t; split; try done.
  - by apply elem_of_elements, list_elem_of_In.
  - by apply list_elem_of_In, elem_of_elements.
Qed.

(** The [any(...)] over the trusted domains decides [trusted_host]. *)
Lemma any_trusted_iff domain :
  existsb
    (fun trusted => String.eqb domain trusted || endswith domain ("." +:+ trusted))
    (elements trusted_domains) = true
  ↔ trusted_host domain.
Proof.
  rewrite any_elements_iff. unfold trusted_host.
  split; intros (t & Hin & Ht); exists t; (split; [done|]).
  - apply orb_true_iff in Ht as [Ht|Ht].
    + left. by apply String.eqb_eq.
    + right. by apply endswith_iff in Ht.
  - apply orb_true_iff. destruct Ht as [->|Hsub].
    + left. apply String.eqb_refl.
    + right. by apply endswith_iff.
Qed.



Lemma existsb_false_iff {A} (f : A -> bool) (l : list A) :
  existsb f l = false ↔ ∀ x, x ∈ l → f x = false.
Proof.
  induction l as [|y l IH]; cbn [existsb].
  - split; [by intros _ x ?%elem_of_nil|done].
  - rewrite orb_false_iff, IH. split.
    + intros [Hy Hl] x [->|Hx]%elem_of_cons; [done|by apply Hl].
    + intros H. split; [apply H; by left|]. intros x Hx. apply H. by right.
Qed.

Lemma isascii_empty nl : truthy nl = false → isascii nl = true.
Proof. by destruct nl. Qed.

(** [_checknetloc] returns exactly on the network locations that pass the
    NFKC check, and raises [ValueError] on the others. *)
Lemma checknetloc_cases tables nl :
  (_checknetloc tables nl = Ok tt ∧ nfkc_accepted tables nl) ∨
  (_checknetloc tables nl = Raise ValueError ∧ ¬ nfkc_accepted tables nl).
Proof.
  unfold _checknetloc, nfkc_accepted. cbv zeta.
  destruct (truthy nl) eqn:Hnl; cbn [negb orb].
  2:{ left. split; [done|]. left. by apply isascii_empty. }
  destruct (isascii nl) eqn:Hascii; [left; split; [done|by left]|].
  case_bool_decide as Hsame.
  { left. split; [done|]. right. by left. }
  destruct (existsb _ netloc_breakers) eqn:Hany.
  - right. split; [done|]. intros [?|[?|Hnone]]; [done|congruence|].
    assert (existsb (fun c => bool_decide
              (c ∈ normalize_NFKC tables (remove_chars is_netloc_punctuation nl)))
              netloc_breakers = false); [|congruence].
    apply existsb_false_iff. intros c Hc. apply bool_decide_eq_false_2. by apply Hnone.
  - left. split; [done|]. right. right. intros c Hc.
    pose proof (proj1 (existsb_false_iff _ _) Hany c Hc) as H.
    by apply bool_decide_eq_false_1 in H.
Qed.

Section WithCheck.

Variable tables : Urllib.Tables.

(** What [urlsplit] does with a url whose text after the scheme starts with
    two slashes: it returns the scheme and the network location when the
    latter passes the bracket check and the NFKC check, and raises
    [ValueError] otherwise. *)
Lemma urlsplit_slashes_cases u sch w :
  split_scheme
    (remove_chars is_unsafe_url_byte (lstrip_with is_c0_control_or_space u))
    = (sch, String "/" (String "/" w)) →
  (urlsplit tables u = Ok (mkParseResult sch (netloc_span w)) ∧
   brackets_accepted tables (netloc_span w) ∧ nfkc_accepted tables (netloc_span w)) ∨
  (urlsplit tables u = Raise ValueError ∧
   ¬ (brackets_accepted tables (netloc_span w) ∧ nfkc_accepted tables (netloc_span w))).
Proof.
  intros Hs. unfold urlsplit. rewrite Hs.
  cbn [take]. rewrite String.eqb_refl, _splitnetloc_slashes.
  unfold brackets_accepted.
  destruct (checknetloc_cases tables (netloc_span w)) as [[Hck Hn]|[Hck Hn]];
    destruct (has_char "[" (netloc_span w)), (has_char "]" (netloc_span w));
    cbn [andb orb negb];
    destruct (Urllib.check_bracketed_netloc tables (netloc_span w));
    cbn [mbind res_bind]; rewrite ?Hck; cbn [mbind res_bind];
    first [left; split; [done|]; split; [|done]; intuition congruence
          |right; split; [done|]; intuition congruence].
Qed.

Lemma urlsplit_no_slashes u sch r :
  split_scheme
    (remove_chars is_unsafe_url_byte (lstrip_with is_c0_control_or_space u))
    = (sch, r) →
  String.eqb (take 2 r) "//" = false →
  urlsplit tables u = Ok (mkParseResult sch EmptyString).
Proof. intros Hs Hr. unfold urlsplit. by rewrite Hs, Hr. Qed.


End WithCheck.



End TrustFacts.

(** ** Which characters survive the string operations *)

Module CharFacts.
Import Py PyFacts Urllib UrllibFacts.

Local Arguments String.append !_ _ / : simpl nomatch.

Lemma chars_sub_refl a : chars_sub a a.
Proof. by intros c. Qed.

Lemma chars_sub_trans a b c : chars_sub a b → chars_sub b c → chars_sub a c.
Proof. intros H1 H2 x Hx. by apply H2, H1. Qed.

Lemma chars_sub_cons c a b : chars_sub a b → chars_sub (String c a) (String c b).
Proof.
  intros H x. simpl. intros [->|Hx]%orb_true_iff; [done|].
  apply orb_true_iff. right. by apply H.
Qed.

Lemma chars_sub_tail c a b : chars_sub a b → chars_sub a (String c b).
Proof. intros H x Hx. simpl. apply orb_true_iff. right. by apply H. Qed.

Lemma chars_sub_nil b : chars_sub EmptyString b.
Proof. by intros c. Qed.

Lemma lstrip_sub p s : chars_sub (lstrip_with p s) s.
Proof.
  induction s as [|c s IH]; simpl; [apply chars_sub_refl|].
  destruct (p c); [by apply chars_sub_tail|apply chars_sub_refl].
Qed.

Lemma rstrip_sub p s : chars_sub (rstrip_with p s) s.
Proof.
  induction s as [|c s IH]; simpl; [apply chars_sub_refl|].
  destruct (rstrip_with p s) as [|d r] eqn:E.
  - destruct (p c); [apply chars_sub_nil|]. apply chars_sub_cons, chars_sub_nil.
  - by apply chars_sub_cons.
Qed.

Lemma strip_sub s : chars_sub (strip s) s.
Proof. eapply chars_sub_trans; [apply rstrip_sub|apply lstrip_sub]. Qed.

Lemma remove_chars_sub p s : chars_sub (remove_chars p s) s.
Proof.
  induction s as [|c s IH]; simpl; [apply chars_sub_refl|].
  destruct (p c); [by apply chars_sub_tail|by apply chars_sub_cons].
Qed.

Lemma drop_sub n s : chars_sub (drop n s) s.
Proof.
  revert s. induction n as [|n IH]; intros [|c s]; simpl;
    try apply chars_sub_refl.
  apply chars_sub_tail, IH.
Qed.

Lemma netloc_span_sub w : chars_sub (netloc_span w) w.
Proof.
  induction w as [|c w IH]; simpl; [apply chars_sub_refl|].
  destruct (is_netloc_delim c); [apply chars_sub_nil|by apply chars_sub_cons].
Qed.

Lemma split_scheme_sub u sch r : split_scheme u = (sch, r) → chars_sub r u.
Proof.
  unfold split_scheme. destruct (find ":" u); [|intros [= _ <-]; apply chars_sub_refl].
  destruct (_ && _); intros [= _ <-]; [exact (drop_sub (S _) u)|apply chars_sub_refl].
Qed.




Lemma bracket_free_sub a b : chars_sub a b → bracket_free b → bracket_free a.
Proof.
  intros Hsub [H1 H2]. split.
  - destruct (has_char "[" a) eqn:E; [|done]. apply Hsub in E. congruence.
  - destruct (has_char "]" a) eqn:E; [|done]. apply Hsub in E. congruence.
Qed.

Lemma all_chars_has p s c :
  all_chars p s = true → has_char c s = true → p c = true.
Proof.
  induction s as [|d s IH]; cbn [all_chars has_char]; [done|].
  intros [Hd Hs]%andb_true_iff [Hc|Hc]%orb_true_iff; [|by apply IH].
  apply Ascii.eqb_eq in Hc as <-. done.
Qed.

Lemma has_all_chars p s :
  (∀ c, has_char c s = true → p c = true) → all_chars p s = true.
Proof.
  induction s as [|d s IH]; cbn [all_chars has_char]; [done|].
  intros H. apply andb_true_iff. split.
  - apply H. by rewrite Ascii.eqb_refl.
  - apply IH. intros c Hc. apply H. by rewrite Hc, orb_true_r.
Qed.

Lemma isascii_sub a b : chars_sub a b → isascii b = true → isascii a = true.
Proof.
  intros Hsub Hb. apply has_all_chars. intros c Hc.
  apply (all_chars_has (fun c => ord c <? 128) b c Hb). by apply Hsub.
Qed.

Lemma plain_ascii_sub a b : chars_sub a b → plain_ascii b → plain_ascii a.
Proof.
  intros Hsub [Hascii Hfree]. split.
  - by eapply isascii_sub.
  - by eapply bracket_free_sub.
Qed.

End CharFacts.

(** ** The response parser *)

Module ParserFacts.
Import PyFacts Urllib UrllibFacts TrustFacts CharFacts.

Local Arguments String.append !_ _ / : simpl nomatch.

Section WithCheck.

Variable tables : Urllib.Tables.

(** [urlsplit] raises only [ValueError], and only on a url that holds a
    square bracket or a character beyond ASCII. *)
Lemma urlsplit_raise u e :
  urlsplit tables u = Raise e → e = ValueError ∧ ¬ plain_ascii u.
Proof.
  destruct (split_scheme
              (Py.remove_chars is_unsafe_url_byte
                 (Py.lstrip_with is_c0_control_or_space u))) as [sch r] eqn:Hs.
  destruct (String.eqb (Py.take 2 r) "//") eqn:Hr.
  2:{ by rewrite (urlsplit_no_slashes tables _ _ _ Hs Hr). }
  apply take2_slashes in Hr as [w ->].
  assert (Hsub : chars_sub (netloc_span w) u).
  { eapply chars_sub_trans; [apply netloc_span_sub|].
    eapply chars_sub_trans; [apply chars_sub_tail, chars_sub_tail, chars_sub_refl|].
    eapply chars_sub_trans; [apply (split_scheme_sub _ _ _ Hs)|].
    eapply chars_sub_trans; [apply remove_chars_sub|apply lstrip_sub]. }
  destruct (urlsplit_slashes_cases tables _ _ _ Hs) as [[Hok _]|[Hbad Hno]];
    [by rewrite Hok|rewrite Hbad].
  intros [= <-]. split; [done|]. intros Hplain. apply Hno.
  destruct (plain_ascii_sub _ _ Hsub Hplain) as [Hascii [H1 H2]].
  split; by left.
Qed.

Lemma is_valid_source_raise url e :
  _is_valid_source tables url = Raise e →
  e = ValueError ∧ ¬ plain_ascii url.
Proof.
  unfold _is_valid_source. destruct (negb _); [done|]. unfold urlparse.
  destruct (urlsplit _ _) as [p|e'] eqn:Hp; cbn [mbind res_bind].
  - by destruct (negb _).
  - intros [= <-]. destruct (urlsplit_raise _ _ Hp) as [-> Hb].
    split; [done|]. intros Hplain. apply Hb.
    eapply plain_ascii_sub; [apply strip_sub|done].
Qed.

Lemma slice_1_m1_length {A} (l : list A) :
  length (Py.slice_1_m1 l) = (length l - 2)%nat.
Proof. unfold Py.slice_1_m1. rewrite length_skipn, length_firstn. lia. Qed.

Lemma slice_1_m1_elem {A} (l : list A) x : x ∈ Py.slice_1_m1 l → x ∈ l.
Proof.
  unfold Py.slice_1_m1. intros H.
  by eapply subseteq_take, subseteq_drop.
Qed.


Lemma in_yes_t_iff x : in_yes_t x = true ↔ x = "yes" ∨ x = "t".
Proof. unfold in_yes_t. by rewrite orb_true_iff, !String.eqb_eq. Qed.

Variables (api country_query : string) (existing_lower : gset string).

(** One pass of the loop body: the row is dropped, or it is accepted and
    its record appended, or the trust check of its url raised. *)
Lemma extract_line_cases manufacturers line :
  let result :=
    extract_line tables api country_query existing_lower
      manufacturers line in
  result = Ok manufacturers ∨
  (∃ r, result = Ok (manufacturers ++ [r]) ∧
        row_accepted tables api country_query existing_lower line r) ∨
  (result = Raise ValueError ∧
   ∃ url, url ∈ row_fields line ∧
          _is_valid_source tables url = Raise ValueError).
Proof.
  cbv zeta. unfold extract_line.
  destruct (is_table_row line) eqn:Hrow; [|by left].
  destruct (length (raw_parts_of line) <? 8)%nat eqn:Hlen; [by left|].
  apply Nat.ltb_ge in Hlen.
  pose proof (slice_1_m1_length (raw_parts_of line)) as Hparts.
  fold (row_fields line) in Hparts |- *.
  destruct (row_fields line) as [|p0 [|p1 [|p2 [|p3 [|p4 [|p5 rest]]]]]] eqn:Hf;
    simpl in Hparts; try lia.
  cbn [length Nat.ltb Nat.leb Py.index lookup list_lookup mbind res_bind].
  case_bool_decide as Hskip; [by left|].
  destruct (_is_valid_source tables p5) as [[]|e] eqn:Hvalid;
    cbn [negb].
  - destruct (Py.contains _ _) eqn:Hcountry; [|by left].
    right; left. eexists. split; [done|].
    split; try done; rewrite ?Hf; try done; cbn; eauto.
  - by left.
  - right; right. destruct (is_valid_source_raise _ _ Hvalid) as [-> _].
    split; [done|]. exists p5. split; [|done]. set_solver.
Qed.


(** The loop: the records found are appended in row order, unless the
    trust check of some row raised. *)
Lemma extract_lines_cases lines manufacturers :
  let result :=
    extract_lines tables api country_query existing_lower
      manufacturers lines in
  (∃ rs, result = Ok (manufacturers ++ rs) ∧
         Extracted tables api country_query existing_lower lines rs) ∨
  (result = Raise ValueError ∧
   ∃ line url, line ∈ lines ∧ url ∈ row_fields line ∧
               _is_valid_source tables url = Raise ValueError).
Proof.
  cbv zeta. revert manufacturers.
  induction lines as [|line lines IH]; intros manufacturers; cbn [extract_lines].
  - left. exists []. rewrite app_nil_r. split; [done|constructor].
  - destruct (extract_line_cases manufacturers line)
      as [Hl|[(r & Hl & Hacc)|(Hl & url & Hurl & Hraise)]];
      rewrite Hl; cbn [mbind res_bind].
    + destruct (IH manufacturers) as [(rs & Hrs & Hex)|(Hr & l & u & Hin & Hu & Hv)].
      * left. exists rs. split; [done|by constructor].
      * right. split; [done|]. exists l, u. split; [by right|done].
    + destruct (IH (manufacturers ++ [r]))
        as [(rs & Hrs & Hex)|(Hr & l & u & Hin & Hu & Hv)].
      * left. exists (r :: rs). rewrite Hrs, <- app_assoc.
        split; [done|by constructor].
      * right. split; [done|]. exists l, u. split; [by right|done].
    + right. split; [done|]. exists line, url. split; [by left|done].
Qed.

Lemma Extracted_elem lines rs r :
  Extracted tables api country_query existing_lower lines rs →
  r ∈ rs →
  ∃ line, line ∈ lines ∧
    row_accepted tables api country_query existing_lower line r.
Proof.
  induction 1 as [|line lines rs _ IH|line lines r' rs Hacc _ IH].
  - by intros ?%elem_of_nil.
  - intros Hr. destruct (IH Hr) as (l & Hl & Ha). exists l. split; [by right|done].
  - intros [->|Hr]%elem_of_cons.
    + exists line. split; [by left|done].
    + destruct (IH Hr) as (l & Hl & Ha). exists l. split; [by right|done].
Qed.

End WithCheck.

(** The parser is the loop over [lines_of], started on the empty list. *)
Lemma extract_manufacturers_loop chk md api country_query skip_batch :
  _extract_manufacturers chk md api country_query skip_batch =
  extract_lines chk api country_query (existing_lower_of skip_batch) [] (lines_of md).
Proof. by destruct md as [[|c text]|]. Qed.

Lemma extract_manufacturers_cases chk md api country_query skip_batch :
  let result := _extract_manufacturers chk md api country_query skip_batch in
  (∃ rs, result = Ok rs ∧
         Extracted chk api country_query (existing_lower_of skip_batch) (lines_of md) rs) ∨
  (result = Raise ValueError ∧
   ∃ line url, line ∈ lines_of md ∧ url ∈ row_fields line ∧
               _is_valid_source chk url = Raise ValueError).
Proof. cbv zeta. rewrite extract_manufacturers_loop. apply extract_lines_cases. Qed.

Lemma extract_manufacturers_accepted chk md api country_query skip_batch out r :
  _extract_manufacturers chk md api country_query skip_batch = Ok out → r ∈ out →
  ∃ line, line ∈ lines_of md ∧
    row_accepted chk api country_query (existing_lower_of skip_batch) line r.
Proof.
  intros Hout Hr.
  destruct (extract_manufacturers_cases chk md api country_query skip_batch)
    as [(rs & Hrs & Hex)|(Hraise & _)]; [|congruence].
  rewrite Hout in Hrs. injection Hrs as <-. by eapply Extracted_elem.
Qed.

Lemma contains_iff a b :
  Py.contains a b = true ↔ ∃ pre post, b = pre +:+ a +:+ post.
Proof.
  induction b as [|c b IH]; cbn [Py.contains].
  - rewrite orb_false_r, prefix_iff. split.
    + intros [r Hr]. by exists EmptyString, r.
    + intros ([|x pre] & post & H); [by exists post|done].
  - rewrite orb_true_iff, prefix_iff, IH. split.
    + intros [[r Hr]|(pre & post & ->)]; [by exists EmptyString, r|].
      by exists (String c pre), post.
    + intros ([|x pre] & post & H); [left; by exists post|].
      right. exists pre, post. simpl in H. congruence.
Qed.

End ParserFacts.

(** ** What the parser guarantees *)

Module ParserClaims.
Import PyFacts TrustFacts CharFacts ParserFacts.

Lemma not_in_existing_lower skip_batch m :
  Py.lower m ∉ existing_lower_of skip_batch ↔
  ∀ name, name ∈ skip_batch → Py.lower m ≠ Py.lower name.
Proof.
  unfold existing_lower_of. rewrite elem_of_list_to_set, list_elem_of_fmap.
  split.
  - intros H name Hin Heq. apply H. by exists name.
  - intros H (name & Heq & Hin). by eapply H.
Qed.

(** C2.  A record whose lower-cased manufacturer name is a member of the
    skip batch never appears in the parser's output, whatever its other
    fields are: the name of every emitted record differs, lower-cased, from
    every lower-cased name of the batch. *)
Theorem skipped_manufacturers_never_emitted
    chk md api country_query skip_batch out r :
  _extract_manufacturers chk md api country_query skip_batch = Ok out →
  r ∈ out →
  (Py.lower (manufacturer r) ∉ skip_batch) ∧
  (∀ name, name ∈ skip_batch → Py.lower (manufacturer r) ≠ Py.lower name).
Proof.
  intros Hout Hr.
  destruct (extract_manufacturers_accepted _ _ _ _ _ _ _ Hout Hr) as (line & _ & Hacc).
  pose proof (proj1 (not_in_existing_lower _ _)
                (accepted_not_skipped _ _ _ _ _ _ Hacc)) as Hskip.
  split; [|done].
  intros Hin. apply (Hskip _ Hin). by rewrite lower_idemp.
Qed.

(** On the sample response with skip batch [known], the row of "Known" is
    dropped and the emitted "Acme" is not in the batch. *)
Lemma skipped_manufacturers_never_emitted_witness :
  (Py.lower (manufacturer acme_record) ∉ ["known"]) ∧
  (∀ name, name ∈ ["known"] → Py.lower (manufacturer acme_record) ≠ Py.lower name).
Proof.
  apply (skipped_manufacturers_never_emitted lenient_tables
           (Some sample_response) "Metformin" "India" ["known"]
           [acme_record; zed_record] acme_record).
  - vm_compute. reflexivity.
  - constructor.
Defined.

(** C3.  Every record of the parser's output carries the country field of a
    row of the input, and the requested country, lower-cased, occurs in that
    field, lower-cased, as a substring.  The match is loose: the query
    "India" keeps a row whose country is "Indiana-based". *)
Theorem kept_rows_contain_country chk api skip_batch :
  (∀ md country_query out r,
     _extract_manufacturers chk md api country_query skip_batch = Ok out →
     r ∈ out →
     (∃ line, line ∈ lines_of md ∧ row_fields line !! 1%nat = Some (country r)) ∧
     Py.contains (Py.lower country_query) (Py.lower (country r)) = true ∧
     (∃ pre post, Py.lower (country r) = pre +:+ Py.lower country_query +:+ post)) ∧
  _extract_manufacturers chk
    (Some "| Acme | Indiana-based | T | unknown | FDA | HTTPS://www.fda.gov/x |")
    "Metformin" "India" [] = Ok [acme_record].
Proof.
  split; [|by vm_compute].
  intros md country_query out r Hout Hr.
  destruct (extract_manufacturers_accepted _ _ _ _ _ _ _ Hout Hr) as (line & Hl & Hacc).
  pose proof (accepted_country_match _ _ _ _ _ _ Hacc) as Hc.
  split_and!; [|done|by apply contains_iff].
  exists line. split; [done|]. apply (accepted_country _ _ _ _ _ _ Hacc).
Qed.

(** On the sample response the emitted "Zed" has a country that contains
    the query. *)
Lemma kept_rows_contain_country_witness :
  Py.contains (Py.lower "India") (Py.lower (country zed_record)) = true.
Proof.
  apply (proj1 (kept_rows_contain_country lenient_tables "Metformin" ["known"])
           (Some sample_response) "India" [acme_record; zed_record] zed_record).
  - vm_compute. reflexivity.
  - constructor. constructor.
Defined.

Lemma accepted_flags chk api country_query existing_lower line r :
  row_accepted chk api country_query existing_lower line r →
  ∃ f2 f3,
    row_fields line !! 2%nat = Some f2 ∧ row_fields line !! 3%nat = Some f3 ∧
    (usdmf r = "Yes" ↔ affirmed f2) ∧ (usdmf r = "No" ↔ ¬ affirmed f2) ∧
    (cep r = "Yes" ↔ affirmed f3) ∧ (cep r = "No" ↔ ¬ affirmed f3).
Proof.
  intros Hacc.
  destruct (accepted_usdmf _ _ _ _ _ _ Hacc) as (f2 & Hf2 & Hu).
  destruct (accepted_cep _ _ _ _ _ _ Hacc) as (f3 & Hf3 & Hc).
  exists f2, f3. unfold affirmed. rewrite <- !in_yes_t_iff, Hu, Hc.
  clear Hu Hc.
  destruct (in_yes_t (Py.lower (Py.strip f2))), (in_yes_t (Py.lower (Py.strip f3)));
    split_and!; try done; intuition congruence.
Qed.

(** C4.  For every table row the loop turns into a record, [usdmf] is "Yes"
    exactly when field 2, trimmed and lower-cased, is "yes" or "t", and "No"
    in every other case; likewise [cep] and field 3.  So no record of the
    parser's output carries "Unknown". *)
Theorem usdmf_cep_yes_or_no chk api country_query skip_batch :
  (∀ manufacturers line r,
     extract_line chk api country_query (existing_lower_of skip_batch)
       manufacturers line = Ok (manufacturers ++ [r]) →
     ∃ f2 f3,
       row_fields line !! 2%nat = Some f2 ∧ row_fields line !! 3%nat = Some f3 ∧
       (usdmf r = "Yes" ↔ affirmed f2) ∧ (usdmf r = "No" ↔ ¬ affirmed f2) ∧
       (cep r = "Yes" ↔ affirmed f3) ∧ (cep r = "No" ↔ ¬ affirmed f3)) ∧
  (∀ md out r,
     _extract_manufacturers chk md api country_query skip_batch = Ok out →
     r ∈ out →
     (usdmf r = "Yes" ∨ usdmf r = "No") ∧ (cep r = "Yes" ∨ cep r = "No") ∧
     usdmf r ≠ "Unknown" ∧ cep r ≠ "Unknown").
Proof.
  split.
  - intros manufacturers line r Hline.
    destruct (extract_line_cases chk api country_query
                (existing_lower_of skip_batch) manufacturers line)
      as [Hl|[(r' & Hl & Hacc)|(Hl & _)]]; rewrite Hl in Hline.
    + injection Hline as Hline. apply (f_equal length) in Hline.
      rewrite length_app in Hline. simpl in Hline. lia.
    + injection Hline as Hline. apply app_inj_tail in Hline as [_ ->].
      by eapply accepted_flags.
    + done.
  - intros md out r Hout Hr.
    destruct (extract_manufacturers_accepted _ _ _ _ _ _ _ Hout Hr) as (line & _ & Hacc).
    destruct (accepted_usdmf _ _ _ _ _ _ Hacc) as (f2 & _ & Hu).
    destruct (accepted_cep _ _ _ _ _ _ Hacc) as (f3 & _ & Hc).
    rewrite Hu, Hc. by destruct (in_yes_t _), (in_yes_t _); split_and!; auto.
Qed.

(** On the sample response, "Acme" has [usdmf] "Yes" (from "T") and [cep]
    "No" (from "unknown"). *)
Lemma usdmf_cep_yes_or_no_witness :
  (usdmf acme_record = "Yes" ∨ usdmf acme_record = "No") ∧
  (cep acme_record = "Yes" ∨ cep acme_record = "No") ∧
  usdmf acme_record ≠ "Unknown" ∧ cep acme_record ≠ "Unknown".
Proof.
  apply (proj2 (usdmf_cep_yes_or_no lenient_tables "Metformin" "India" ["known"])
           (Some sample_response) [acme_record; zed_record] acme_record).
  - vm_compute. reflexivity.
  - constructor.
Defined.




(** C10.  The row with a blank manufacturer cell has 8 segments and 6
    fields, and for every skip batch that does not hold the empty name the
    parser emits its record, whose manufacturer is the empty string. *)
Theorem blank_manufacturer_emitted chk api skip_batch :
  EmptyString ∉ skip_batch →
  length (Py.split "|" blank_manufacturer_row) = 8%nat ∧
  length (row_fields blank_manufacturer_row) = 6%nat ∧
  _extract_manufacturers chk (Some blank_manufacturer_row) api "India" skip_batch =
    Ok [ {| api_name := api; manufacturer := EmptyString; country := "India";
            usdmf := "Yes"; cep := "No"; source_name := "FDA";
            source_url := "https://fda.gov/x" |} ].
Proof.
  intros Hskip. split_and!; [done..|].
  rewrite extract_manufacturers_loop.
  change (lines_of (Some blank_manufacturer_row)) with [blank_manufacturer_row].
  cbn [extract_lines]. unfold extract_line.
  change (is_table_row blank_manufacturer_row) with true.
  change (raw_parts_of blank_manufacturer_row)
    with [EmptyString; EmptyString; "India"; "yes"; "no"; "FDA";
          "https://fda.gov/x"; EmptyString].
  cbn [length Nat.ltb Nat.leb Py.slice_1_m1 Nat.sub firstn skipn
       Py.index lookup list_lookup mbind res_bind Py.lower].
  rewrite bool_decide_eq_false_2.
  2:{ apply (proj2 (not_in_existing_lower skip_batch EmptyString)).
      intros name Hin Hname.
      symmetry in Hname. apply lower_empty in Hname as ->. done. }
  assert (Hvalid : _is_valid_source chk "https://fda.gov/x" = Ok true)
    by (by vm_compute).
  rewrite Hvalid. done.
Qed.

(** With the skip batch [known] the blank row yields a record with an empty
    manufacturer. *)
Lemma blank_manufacturer_emitted_witness :
  _extract_manufacturers lenient_tables (Some blank_manufacturer_row)
    "Metformin" "India" ["known"] =
    Ok [ {| api_name := "Metformin"; manufacturer := EmptyString; country := "India";
            usdmf := "Yes"; cep := "No"; source_name := "FDA";
            source_url := "https://fda.gov/x" |} ].
Proof.
  apply (blank_manufacturer_emitted lenient_tables "Metformin" ["known"]).
  intros Hin. apply list_elem_of_singleton in Hin. discriminate Hin.
Defined.

End ParserClaims.

(** ** The query planner *)

Module PlannerFacts.

Lemma range_step_30 n :
  range_step n 30 = (fun k => k * 30)%nat <$> seq 0 ((n + 29) / 30)%nat.
Proof. reflexivity. Qed.

(** The slices before the default [[[]]] is substituted. *)
Lemma raw_batches (l : list string) :
  (fun i => slice l i (i + 30)) <$> range_step (length l) 30 =
  (fun k => take 30 (drop (k * 30) l)) <$> seq 0 ((length l + 29) / 30)%nat.
Proof.
  rewrite range_step_30, <- list_fmap_compose. apply list_fmap_ext.
  intros _ k _. unfold slice. simpl. f_equal. lia.
Qed.

Lemma concat_chunks (l : list string) m :
  concat ((fun k => take 30 (drop (k * 30) l)) <$> seq 0 m) = take (m * 30) l.
Proof.
  induction m as [|m IH]; [done|].
  rewrite seq_S, fmap_app, concat_app, IH. simpl. rewrite app_nil_r.
  rewrite take_take_drop. f_equal. lia.
Qed.

Lemma batches_of_nonempty (l : list string) :
  l ≠ [] →
  batches_of l =
  (fun k => take 30 (drop (k * 30) l)) <$> seq 0 ((length l + 29) / 30)%nat.
Proof.
  intros Hl. unfold batches_of. rewrite raw_batches.
  destruct l as [|x l]; [done|].
  assert (Hm : ∃ m, ((length (x :: l) + 29) / 30 = S m)%nat).
  { exists (((length (x :: l) + 29) / 30) - 1)%nat. simpl length.
    assert (1 ≤ (S (length l) + 29) / 30)%nat; [|lia].
    apply Nat.div_le_lower_bound; lia. }
  destruct Hm as [m ->]. done.
Qed.


(** C5.  The batches are the consecutive slices of 30 names: their
    concatenation is the skip list, none is longer than 30, the k-th one is
    [skip_list[30k : 30k + 30]]; the empty skip list yields the one empty
    batch, and 65 names yield batches of 30, 30 and 5. *)
Theorem batches_partition (skip_list : list string) :
  concat (batches_of skip_list) = skip_list ∧
  Forall (fun batch => length batch ≤ 30)%nat (batches_of skip_list) ∧
  (∀ k batch, batches_of skip_list !! k = Some batch →
              batch = take 30 (drop (30 * k) skip_list)) ∧
  (skip_list = [] → batches_of skip_list = [[]]) ∧
  (length skip_list = 65%nat → length <$> batches_of skip_list = [30; 30; 5]%nat).
Proof.
  destruct (decide (skip_list = [])) as [->|Hne].
  { split_and!; try done.
    - repeat constructor.
    - intros [|k] batch; [|done]. by intros [= <-]. }
  rewrite (batches_of_nonempty _ Hne). split_and!; [| | |done|].
  - rewrite concat_chunks. apply take_ge.
    pose proof (Nat.div_mod_eq (length skip_list + 29) 30) as Hd.
    pose proof (Nat.mod_upper_bound (length skip_list + 29) 30). lia.
  - apply Forall_fmap, Forall_forall. intros k _. simpl.
    rewrite length_take. lia.
  - intros k batch Hk. apply list_lookup_fmap_Some in Hk as (j & -> & Hj).
    apply lookup_seq in Hj as [-> _]. do 2 f_equal. lia.
  - intros Hlen. rewrite Hlen.
    change ((65 + 29) / 30)%nat with 3%nat. cbn [seq fmap list_fmap].
    rewrite !length_take, !length_drop, Hlen. reflexivity.
Qed.

(** A skip list of 65 names. *)
Lemma batches_partition_witness :
  batches_of [] = [[]] ∧
  length <$> batches_of (replicate 65 "acme") = [30; 30; 5]%nat.
Proof.
  split.
  - apply (batches_partition []). reflexivity.
  - apply (batches_partition (replicate 65 "acme")). reflexivity.
Defined.

End PlannerFacts.

(** ** The orchestrator *)

Module DiscoveryFacts.

Section Run.

Context {W : Type}.
Variables (tables : Urllib.Tables)
          (requests_get : string -> string -> W -> option (list StoreRow) * W)
          (requests_post : list Payload -> W -> option (list StoreRow) * W)
          (utcnow : W -> string)
          (self : @Service W).

Local Abbreviation fetch := (_fetch_existing_records requests_get self).
Local Abbreviation insert := (_insert_records requests_post utcnow self).
Local Abbreviation attempt := (_discover_with_groq tables self).
Local Abbreviation loop := (discover_batches tables self).
Local Abbreviation run :=
  (discover tables requests_get requests_post utcnow self).
Local Abbreviation quiet := (Quiet tables self).

Local Abbreviation prompts_of := (model_prompts self).


Lemma fetch_trace api_name country s :
  ∃ evs, trace (fetch api_name country s).2 = trace s ++ evs ∧
         Forall (fun e => is_fetch e = true) evs.
Proof.
  unfold _fetch_existing_records, bind, call, ret.
  destruct (_use_supabase self).
  - destruct (requests_get _ _ _) as [[json|] w']; simpl.
    + eexists. split; [done|]. by repeat constructor.
    + destruct (query _ _ _ _) as [r w'']; simpl.
      rewrite <- app_assoc. eexists. split; [done|]. by repeat constructor.
  - destruct (query _ _ _ _) as [r w'']; simpl.
    eexists. split; [done|]. by repeat constructor.
Qed.

Lemma insert_trace records source_label s :
  ∃ evs, trace (insert records source_label s).2 = trace s ++ evs ∧
         Forall (fun e => groq_prompt e = None ∧ inserts_exactly records e) evs.
Proof.
  unfold _insert_records, bind, call, ret.
  destruct records as [|r records].
  { exists []. by rewrite app_nil_r. }
  destruct (_use_supabase self).
  - destruct (requests_post _ _) as [[data|] w']; simpl.
    + eexists. split; [done|]. repeat constructor. simpl.
      rewrite <- list_fmap_compose. f_equal. by rewrite list_fmap_id.
    + destruct (insert_records _ _ _ _) as [res w'']; simpl.
      rewrite <- app_assoc. eexists. split; [done|]. repeat constructor. simpl.
      rewrite <- list_fmap_compose. f_equal. by rewrite list_fmap_id.
  - destruct (insert_records _ _ _ _) as [res w'']; simpl.
    eexists. split; [done|]. by repeat constructor.
Qed.

(** One attempt: nothing happens without a model client; with one, the
    pause and the one request for the batch. *)
Lemma attempt_run api_name country batch s :
  match groq_client self with
  | None => attempt api_name country batch s = ([], s)
  | Some _ =>
      trace (attempt api_name country batch s).2 =
      trace s ++ [EvSleep 1; EvGroq (prompt_for api_name country batch)]
  end.
Proof.
  unfold _discover_with_groq, _run_groq_extraction, bind, call, ret.
  destruct (groq_client self) as [create|]; [|done].
  simpl. destruct (create _ _) as [reply w']. simpl.
  rewrite <- app_assoc. simpl.
  destruct reply as [| |[text|]]; try done.
  destruct (Py.truthy text); [|done].
  by destruct (_extract_manufacturers _ _ _ _ _).
Qed.

Lemma attempt_prompts api_name country batch s :
  ∃ evs, trace (attempt api_name country batch s).2 = trace s ++ evs ∧
         omap groq_prompt evs = prompts_of api_name country [batch].
Proof.
  pose proof (attempt_run api_name country batch s) as H.
  unfold model_prompts. destruct (groq_client self).
  - eexists. split; [exact H|done].
  - rewrite H. exists []. by rewrite app_nil_r.
Qed.

Lemma found_needs_client api_name country batch s :
  (attempt api_name country batch s).1 ≠ [] → is_Some (groq_client self).
Proof.
  pose proof (attempt_run api_name country batch s) as H.
  destruct (groq_client self); [eauto|]. by rewrite H.
Qed.

Lemma model_prompts_app api_name country bs1 bs2 :
  prompts_of api_name country (bs1 ++ bs2) =
  prompts_of api_name country bs1 ++ prompts_of api_name country bs2.
Proof. unfold model_prompts. destruct (groq_client self); [apply fmap_app|done]. Qed.


Lemma loop_step api_name country batch batches s :
  loop api_name country [] (batch :: batches) s =
  match (attempt api_name country batch s).1 with
  | [] => loop api_name country [] batches (attempt api_name country batch s).2
  | found => (found, (attempt api_name country batch s).2)
  end.
Proof.
  cbn [discover_batches]. unfold bind at 1, ret.
  by destruct (attempt api_name country batch s) as [[|r found] s1].
Qed.

(** The loop either stops at the first batch that yields records, with
    the state that attempt left, or tries every batch and finds nothing. *)
Lemma loop_cases api_name country batches s :
  (∃ tried batch rest found s1 s2 evs,
      batches = tried ++ batch :: rest ∧
      quiet api_name country tried s s1 ∧
      attempt api_name country batch s1 = (found, s2) ∧
      found ≠ [] ∧
      loop api_name country [] batches s = (found, s2) ∧
      trace s2 = trace s ++ evs ∧
      omap groq_prompt evs = prompt_for api_name country <$> (tried ++ [batch])) ∨
  (∃ s' evs,
      quiet api_name country batches s s' ∧
      loop api_name country [] batches s = ([], s') ∧
      trace s' = trace s ++ evs ∧
      omap groq_prompt evs = prompts_of api_name country batches).
Proof.
  revert s. induction batches as [|batch batches IH]; intros s.
  { right. exists s, []. rewrite app_nil_r. split_and!; try done.
    - constructor.
    - unfold model_prompts. by destruct (groq_client self). }
  rewrite loop_step.
  destruct (attempt api_name country batch s) as [found s1] eqn:Hb.
  cbn [fst snd]. destruct found as [|r found].
  - destruct (attempt_prompts api_name country batch s) as (evs1 & Ht1 & Hp1).
    rewrite Hb in Ht1. cbn [snd] in Ht1.
    destruct (IH s1)
      as [(tried & b & rest & fnd & s2 & s3 & evs & -> & Hq & Hb' & Hne & Hl & Ht & Hp)|
          (s' & evs & Hq & Hl & Ht & Hp)].
    + left. exists (batch :: tried), b, rest, fnd, s2, s3, (evs1 ++ evs).
      split_and!; try done.
      * by econstructor.
      * by rewrite Ht, Ht1, <- app_assoc.
      * rewrite omap_app, Hp1, Hp. unfold model_prompts.
        destruct (found_needs_client api_name country b s2) as [create Hc].
        { by rewrite Hb'. }
        by rewrite Hc.
    + right. exists s', (evs1 ++ evs). split_and!; try done.
      * by econstructor.
      * by rewrite Ht, Ht1, <- app_assoc.
      * rewrite omap_app, Hp1, Hp.
        by rewrite <- model_prompts_app.
  - left. exists [], batch, batches, (r :: found), s, s1.
    destruct (attempt_prompts api_name country batch s) as (evs1 & Ht1 & Hp1).
    rewrite Hb in Ht1. cbn [snd] in Ht1. exists evs1.
    split_and!; try done.
    + constructor.
    + rewrite Hp1. unfold model_prompts.
      destruct (found_needs_client api_name country batch s) as [create Hc].
      { by rewrite Hb. }
      by rewrite Hc.
Qed.

Lemma discover_invalid api_name country s :
  trimmed api_name = EmptyString ∨ trimmed country = EmptyString →
  run api_name country s =
    (Failure "API name and country are required for discovery.", s).
Proof.
  unfold trimmed, discover. intros [-> | ->]; [done|].
  by rewrite orb_true_r.
Qed.

(** A run on valid inputs, step by step. *)
Lemma discover_valid api_name country s :
  trimmed api_name ≠ EmptyString → trimmed country ≠ EmptyString →
  let a := trimmed api_name in
  let c := trimmed country in
  let existing := (fetch a c s).1 in
  let s1 := (fetch a c s).2 in
  let found := (loop a c [] (batches_of (skip_list_of existing)) s1).1 in
  let s2 := (loop a c [] (batches_of (skip_list_of existing)) s1).2 in
  run api_name country s =
    match found with
    | [] => (Success existing [] (fetch a c s2).1 0, (fetch a c s2).2)
    | _ :: _ =>
        let result := (insert found "groq_discovery" s2).1 in
        let s3 := (insert found "groq_discovery" s2).2 in
        (Success existing (rows result) (fetch a c s3).1 (inserted result),
         (fetch a c s3).2)
    end.
Proof.
  intros Ha Hc. cbv zeta. unfold discover. fold (trimmed api_name) (trimmed country).
  destruct (trimmed api_name) as [|x a] eqn:Ea; [done|].
  destruct (trimmed country) as [|y c] eqn:Ec; [done|].
  cbn [Py.truthy negb orb]. unfold bind at 1.
  destruct (fetch _ _ s) as [existing s1]. cbn [fst snd]. unfold bind at 1.
  destruct (loop _ _ [] _ s1) as [[|r found] s2]; cbn [fst snd]; unfold bind, ret.
  - by destruct (fetch _ _ s2).
  - destruct (insert _ _ s2) as [result s3]. cbn [fst snd].
    by destruct (fetch _ _ s3).
Qed.

(** C6.  The batches are tried in order.  Either some batch is the first
    to yield records: the batches before it yielded nothing, the loop
    returns exactly its records in the state that attempt left, and the
    model was invoked for the batches up to it and for no later one.  Or
    every batch was tried and nothing was found.  After the loop a run
    invokes the model no more, and what it hands to the store for
    insertion is exactly what the loop returned. *)
Theorem batches_tried_in_order_until_first_yield api_name country s :
  (∀ a c batches s0,
     (∃ tried batch rest found s1 s2 evs,
         batches = tried ++ batch :: rest ∧
         quiet a c tried s0 s1 ∧
         attempt a c batch s1 = (found, s2) ∧
         found ≠ [] ∧
         loop a c [] batches s0 = (found, s2) ∧
         trace s2 = trace s0 ++ evs ∧
         omap groq_prompt evs = prompt_for a c <$> (tried ++ [batch])) ∨
     (∃ s' evs,
         quiet a c batches s0 s' ∧
         loop a c [] batches s0 = ([], s') ∧
         trace s' = trace s0 ++ evs ∧
         omap groq_prompt evs = prompts_of a c batches)) ∧
  (trimmed api_name ≠ EmptyString → trimmed country ≠ EmptyString →
   let a := trimmed api_name in
   let c := trimmed country in
   let existing := (fetch a c s).1 in
   let s1 := (fetch a c s).2 in
   let found := (loop a c [] (batches_of (skip_list_of existing)) s1).1 in
   let s2 := (loop a c [] (batches_of (skip_list_of existing)) s1).2 in
   ∃ evs, trace (run api_name country s).2 = trace s2 ++ evs ∧
          Forall (fun e => groq_prompt e = None ∧ inserts_exactly found e) evs).
Proof.
  split; [intros a c batches s0; apply loop_cases|].
  intros Ha Hc. rewrite (discover_valid _ _ _ Ha Hc). cbv zeta.
  set (a := trimmed api_name). set (c := trimmed country).
  destruct (fetch a c s) as [existing s1]. cbn [fst snd].
  destruct (loop a c [] _ s1) as [found s2]. cbn [fst snd].
  assert (Hfetch : ∀ st, ∃ evs,
             trace (fetch a c st).2 = trace st ++ evs ∧
             Forall (fun e => groq_prompt e = None ∧ inserts_exactly found e) evs).
  { intros st. destruct (fetch_trace a c st) as (evs & Ht & Hf).
    exists evs. split; [done|]. eapply Forall_impl; [exact Hf|].
    by intros [] ?. }
  destruct found as [|r found]; cbn [snd]; [apply Hfetch|].
  destruct (insert_trace (r :: found) "groq_discovery" s2) as (evs1 & Ht1 & Hf1).
  destruct (Hfetch (insert (r :: found) "groq_discovery" s2).2) as (evs2 & Ht2 & Hf2).
  exists (evs1 ++ evs2). rewrite Ht2, Ht1, <- app_assoc. split; [done|].
  by apply Forall_app.
Qed.

(** C7.  When either input is empty after trimming, [discover] returns
    the failure with its message and touches nothing: the state of the
    world and the trace of outside calls are unchanged.  In every other
    case the result has [success] true, so [success] is false only on
    this validation failure. *)
Theorem discover_fails_only_on_missing_input api_name country s :
  (trimmed api_name = EmptyString ∨ trimmed country = EmptyString →
   run api_name country s =
     (Failure "API name and country are required for discovery.", s)) ∧
  (trimmed api_name ≠ EmptyString → trimmed country ≠ EmptyString →
   success (run api_name country s).1 = true) ∧
  (success (run api_name country s).1 = false ↔
   trimmed api_name = EmptyString ∨ trimmed country = EmptyString).
Proof.
  assert (Hvalid : trimmed api_name ≠ EmptyString → trimmed country ≠ EmptyString →
                   success (run api_name country s).1 = true).
  { intros Ha Hc. rewrite (discover_valid _ _ _ Ha Hc). cbv zeta.
    by destruct (loop _ _ [] _ _).1. }
  split_and!; [apply discover_invalid|done|]. split.
  - intros Hfail.
    destruct (decide (trimmed api_name = EmptyString)) as [|Ha]; [by left|].
    destruct (decide (trimmed country = EmptyString)) as [|Hc]; [by right|].
    rewrite (Hvalid Ha Hc) in Hfail. done.
  - intros H. by rewrite (discover_invalid _ _ _ H).
Qed.

Lemma fetch_world api_name country s :
  reads_leave_world requests_get self →
  world (fetch api_name country s).2 = world s.
Proof.
  intros [Hget Hquery]. unfold _fetch_existing_records, bind, call, ret.
  destruct (_use_supabase self).
  - pose proof (Hget api_name country (world s)) as Hg.
    destruct (requests_get _ _ _) as [[json|] w']; cbn [fst snd world] in *; [done|].
    subst w'. pose proof (Hquery api_name country (world s)) as Hq.
    by destruct (query _ _ _ _) as [r w''].
  - pose proof (Hquery api_name country (world s)) as Hq.
    by destruct (query _ _ _ _) as [r w''].
Qed.

(** The answer of a fetch depends on the state only through the world. *)
Lemma fetch_answer api_name country s1 s2 :
  world s1 = world s2 →
  (fetch api_name country s1).1 = (fetch api_name country s2).1.
Proof.
  intros Hw. unfold _fetch_existing_records, bind, call, ret.
  destruct (_use_supabase self); cbv beta; rewrite Hw.
  - destruct (requests_get _ _ _) as [[json|] w']; cbn [fst snd world]; [done|].
    by destruct (query _ _ _ _) as [r w''].
  - by destruct (query _ _ _ _) as [r w''].
Qed.

(** C8 (amended).  Without a model client a run on non-empty inputs succeeds
    with no new records and an inserted count of 0; the only outside calls
    are store fetches, so nothing is inserted and no model is invoked.
    [existing_records] is the answer to the first fetch and [all_records]
    the answer to the same fetch made again in the state the first one
    left.  When reading the store leaves the world as it is, the two
    snapshots are equal and the run changes nothing outside the process. *)
Theorem discover_without_model_client api_name country s :
  groq_client self = None →
  trimmed api_name ≠ EmptyString → trimmed country ≠ EmptyString →
  ∃ existing all s' evs,
    run api_name country s = (Success existing [] all 0, s') ∧
    existing = (fetch (trimmed api_name) (trimmed country) s).1 ∧
    all = (fetch (trimmed api_name) (trimmed country)
             (fetch (trimmed api_name) (trimmed country) s).2).1 ∧
    trace s' = trace s ++ evs ∧
    Forall (fun e => is_fetch e = true ∧ is_insert e = false ∧
                     groq_prompt e = None) evs ∧
    (reads_leave_world requests_get self → existing = all ∧ world s' = world s).
Proof.
  intros Hnone Ha Hc. rewrite (discover_valid _ _ _ Ha Hc). cbv zeta.
  set (a := trimmed api_name). set (c := trimmed country).
  assert (Hloop : ∀ batches st, loop a c [] batches st = ([], st)).
  { induction batches as [|batch batches IH]; intros st; [done|].
    rewrite loop_step. pose proof (attempt_run a c batch st) as Hb.
    rewrite Hnone in Hb. rewrite Hb. apply IH. }
  rewrite Hloop. cbn [fst snd].
  destruct (fetch_trace a c s) as (evs1 & Ht1 & Hf1).
  destruct (fetch_trace a c (fetch a c s).2) as (evs2 & Ht2 & Hf2).
  eexists _, _, _, (evs1 ++ evs2). split_and!; [done..| | |].
  - by rewrite Ht2, Ht1, <- app_assoc.
  - apply Forall_app. split; (eapply Forall_impl; [eassumption|]); by intros [] ?.
  - intros Hreads. split.
    + symmetry. apply fetch_answer. by apply fetch_world.
    + by rewrite !fetch_world.
Qed.

End Run.

(** With the sample service: the model is asked once, for the batch
    [known]; afterwards the run makes the insert of the two records found
    and the second fetch, and no model call. *)
Lemma batches_tried_in_order_until_first_yield_witness :
  ∃ evs,
    trace (sample_discover sample_service (Some " Metformin ") (Some "India")).2 =
      [EvServiceQuery "Metformin" "India"; EvSleep 1;
       EvGroq (prompt_for "Metformin" "India" ["known"])] ++ evs ∧
    Forall (fun e => groq_prompt e = None ∧
                     inserts_exactly [acme_record; zed_record] e) evs.
Proof.
  pose proof (proj2 (batches_tried_in_order_until_first_yield
                       lenient_tables rest_down_get rest_down_post
                       fixed_clock sample_service
                       (Some " Metformin ") (Some "India") initial_state)) as H.
  assert (Ha : trimmed (Some " Metformin ") ≠ EmptyString) by (vm_compute; discriminate).
  assert (Hc : trimmed (Some "India") ≠ EmptyString) by (vm_compute; discriminate).
  specialize (H Ha Hc). exact H.
Defined.

(** With the sample service: a missing ingredient name fails and leaves
    the state as it was; a padded name and a country succeed. *)
Lemma discover_fails_only_on_missing_input_witness :
  sample_discover sample_service None (Some "India") =
    (Failure "API name and country are required for discovery.", initial_state) ∧
  success (sample_discover sample_service (Some " Metformin ") (Some "India")).1 = true.
Proof.
  split.
  - apply (discover_fails_only_on_missing_input
             lenient_tables rest_down_get rest_down_post fixed_clock
             sample_service None (Some "India") initial_state).
    left. reflexivity.
  - apply (discover_fails_only_on_missing_input
             lenient_tables rest_down_get rest_down_post fixed_clock
             sample_service (Some " Metformin ") (Some "India") initial_state);
      vm_compute; discriminate.
Defined.

(** With the in-memory store, whose query changes nothing, and no model
    client the two snapshots are the same table. *)
Lemma discover_without_model_client_witness :
  ∃ existing s',
    sample_discover unconfigured_service (Some " Metformin ") (Some "India") =
      (Success existing [] existing 0, s').
Proof.
  destruct (discover_without_model_client
              lenient_tables rest_down_get rest_down_post fixed_clock
              unconfigured_service (Some " Metformin ") (Some "India") initial_state)
    as (existing & all & s' & evs & Hrun & _ & _ & _ & _ & Hsame).
  - reflexivity.
  - vm_compute; discriminate.
  - vm_compute; discriminate.
  - destruct Hsame as [Heq _]; [by split|].
    exists existing, s'. rewrite Heq at 2. exact Hrun.
Defined.

(** C8 as stated fails: with a store that another writer fills between the
    two reads, the run without a model client returns two snapshots that
    differ. *)
Lemma discover_snapshots_differ :
  groq_client concurrent_unconfigured_service = None ∧
  (discover lenient_tables rest_down_get rest_down_post fixed_clock
     concurrent_unconfigured_service (Some "Metformin") (Some "India")
     {| world := []; trace := [] |}).1
  = Success [] [] [known_row] 0.
Proof. by vm_compute. Qed.

End DiscoveryFacts.

(** ** Trimming *)

Module StripFacts.
Import Py.

Lemma lstrip_head p s :
  lstrip_with p s = EmptyString ∨
  ∃ c t, lstrip_with p s = String c t ∧ p c = false.
Proof.
  induction s as [|c s IH]; simpl; [by left|].
  destruct (p c) eqn:E; [done|]. right. by exists c, s.
Qed.

Lemma rstrip_keeps_head p c t :
  p c = false → ∃ t', rstrip_with p (String c t) = String c t'.
Proof.
  intros Hc. simpl. destruct (rstrip_with p t) as [|d r].
  - rewrite Hc. by eexists.
  - by eexists.
Qed.

Lemma rstrip_idemp p s : rstrip_with p (rstrip_with p s) = rstrip_with p s.
Proof.
  induction s as [|c s IH]; simpl; [done|].
  destruct (rstrip_with p s) as [|d r] eqn:E.
  - destruct (p c) eqn:Hc; simpl; [done|]. by rewrite Hc.
  - cbn [rstrip_with]. cbn [rstrip_with] in IH.
    destruct (match rstrip_with p r with
              | EmptyString => if p d then EmptyString else String d EmptyString
              | String a s0 => String d (String a s0)
              end) eqn:E2; [done|]. by rewrite IH.
Qed.

Lemma strip_idemp s : strip (strip s) = strip s.
Proof.
  unfold strip.
  destruct (lstrip_head is_whitespace s) as [->|(c & t & -> & Hc)]; [done|].
  destruct (rstrip_keeps_head is_whitespace c t Hc) as [t' Ht]. rewrite Ht.
  cbn [lstrip_with]. rewrite Hc, <- Ht. apply rstrip_idemp.
Qed.

(** The last character of a right-stripped string is not of the class. *)
Lemma rstrip_no_tail p s a c :
  rstrip_with p s = a +:+ String c EmptyString → p c = false.
Proof.
  revert a. induction s as [|d s IH]; intros a; simpl.
  - by destruct a.
  - destruct (rstrip_with p s) as [|e r] eqn:E.
    + destruct (p d) eqn:Hd; [by destruct a|].
      destruct a as [|x a]; simpl; [by intros [= <-]|].
      intros [= _ H]. by destruct a.
    + destruct a as [|x a]; simpl; [done|].
      intros [= _ H]. by eapply IH.
Qed.

End StripFacts.

(** ** More on the response parser *)

Module ParserCompleteness.
Import PyFacts TrustFacts CharFacts ParserFacts StripFacts.

Lemma index_lookup {A} (l : list A) i x : l !! i = Some x → Py.index l i = Ok x.
Proof. unfold Py.index. by intros ->. Qed.

(** An accepted row is appended by the loop body. *)
Lemma extract_line_accepted chk api country_query existing_lower manufacturers line r :
  row_accepted chk api country_query existing_lower line r →
  extract_line chk api country_query existing_lower manufacturers line
  = Ok (manufacturers ++ [r]).
Proof.
  intros [Hrow Hseg Hapi Hm Hskip Hc (p2 & Hp2 & Hu) (p3 & Hp3 & Hcep) Hn Hurl Hv Hmatch].
  unfold extract_line. rewrite Hrow.
  apply Nat.ltb_ge in Hseg. rewrite Hseg.
  fold (row_fields line).
  assert (Hlen : (length (row_fields line) <? 6)%nat = false).
  { apply Nat.ltb_ge. apply lookup_lt_Some in Hurl. lia. }
  rewrite Hlen.
  rewrite (index_lookup _ _ _ Hm), (index_lookup _ _ _ Hc), (index_lookup _ _ _ Hp2),
    (index_lookup _ _ _ Hp3), (index_lookup _ _ _ Hn), (index_lookup _ _ _ Hurl).
  cbn [mbind res_bind]. rewrite bool_decide_eq_false_2 by done.
  rewrite Hv. cbn [mbind res_bind negb]. rewrite Hmatch, <- Hu, <- Hcep, <- Hapi.
  by destruct r.
Qed.

Lemma row_accepted_functional chk api country_query existing_lower line r r' :
  row_accepted chk api country_query existing_lower line r →
  row_accepted chk api country_query existing_lower line r' →
  r = r'.
Proof.
  intros H H'.
  pose proof (extract_line_accepted _ _ _ _ [] _ _ H) as E.
  rewrite (extract_line_accepted _ _ _ _ [] _ _ H') in E. by injection E.
Qed.

Lemma extract_lines_complete chk api country_query existing_lower lines :
  ∀ manufacturers out line r,
    extract_lines chk api country_query existing_lower manufacturers lines = Ok out →
    line ∈ lines →
    row_accepted chk api country_query existing_lower line r →
    r ∈ out.
Proof.
  induction lines as [|l lines IH]; intros manufacturers out line r Hout Hin Hacc.
  { by apply elem_of_nil in Hin. }
  cbn [extract_lines] in Hout.
  destruct (extract_line chk api country_query existing_lower manufacturers l)
    as [ms'|e] eqn:Hl; [|done].
  cbn [mbind res_bind] in Hout.
  apply elem_of_cons in Hin as [->|Hin]; [|by eapply IH].
  rewrite (extract_line_accepted _ _ _ _ _ _ _ Hacc) in Hl. injection Hl as <-.
  destruct (extract_lines_cases chk api country_query existing_lower lines
              (manufacturers ++ [r])) as [(rs & Hrs & _)|(Hraise & _)];
    [|congruence].
  rewrite Hout in Hrs. injection Hrs as ->. set_solver.
Qed.

(** X4.  The parser drops no row that passes every filter: when it returns,
    the record of every accepted row of the input is in its output, and a
    row has one record at most. *)
Theorem accepted_rows_all_emitted chk md api country_query skip_batch out :
  _extract_manufacturers chk md api country_query skip_batch = Ok out →
  (∀ line r,
     line ∈ lines_of md →
     row_accepted chk api country_query (existing_lower_of skip_batch) line r →
     r ∈ out) ∧
  (∀ line r r',
     row_accepted chk api country_query (existing_lower_of skip_batch) line r →
     row_accepted chk api country_query (existing_lower_of skip_batch) line r' →
     r = r') ∧
  (length out ≤ length (lines_of md))%nat.
Proof.
  intros Hout. split_and!.
  - intros line r Hin Hacc. rewrite extract_manufacturers_loop in Hout.
    by eapply extract_lines_complete.
  - intros line r r'. apply row_accepted_functional.
  - destruct (extract_manufacturers_cases chk md api country_query skip_batch)
      as [(rs & Hrs & Hex)|(Hraise & _)]; [|congruence].
    rewrite Hout in Hrs. injection Hrs as <-.
    clear Hout. induction Hex; simpl; lia.
Qed.

Lemma field_trimmed line i x : row_fields line !! i = Some x → Py.strip x = x.
Proof.
  intros H%list_elem_of_lookup_2%slice_1_m1_elem. unfold raw_parts_of in H.
  apply list_elem_of_fmap in H as (p & -> & _). apply strip_idemp.
Qed.

(** X3.  Every record of the parser's output carries the requested
    ingredient name, a source url that passes the trust check, and text
    fields without surrounding whitespace. *)
Theorem emitted_records_well_formed chk md api country_query skip_batch out r :
  _extract_manufacturers chk md api country_query skip_batch = Ok out →
  r ∈ out →
  api_name r = api ∧
  _is_valid_source chk (source_url r) = Ok true ∧
  Py.strip (manufacturer r) = manufacturer r ∧
  Py.strip (country r) = country r ∧
  Py.strip (source_name r) = source_name r ∧
  Py.strip (source_url r) = source_url r.
Proof.
  intros Hout Hr.
  destruct (extract_manufacturers_accepted _ _ _ _ _ _ _ Hout Hr) as (line & _ & Hacc).
  destruct Hacc as [_ _ Hapi Hm _ Hc _ _ Hn Hurl Hv _].
  split_and!; try done; by eapply field_trimmed.
Qed.

Lemma existing_lower_of_nil : existing_lower_of [] = ∅.
Proof. reflexivity. Qed.

Lemma extract_line_filter chk api country_query (existing_lower : gset string)
    manufacturers line out :
  extract_line chk api country_query ∅ manufacturers line = Ok out →
  extract_line chk api country_query existing_lower
    (filter (fun r => Py.lower (manufacturer r) ∉ existing_lower) manufacturers) line
  = Ok (filter (fun r => Py.lower (manufacturer r) ∉ existing_lower) out).
Proof.
  unfold extract_line.
  destruct (is_table_row line); [|by intros [= <-]].
  destruct (length (raw_parts_of line) <? 8)%nat; [by intros [= <-]|].
  destruct (length (Py.slice_1_m1 (raw_parts_of line)) <? 6)%nat; [by intros [= <-]|].
  destruct (Py.index _ 0) as [p0|]; [|done]. cbn [mbind res_bind].
  rewrite (bool_decide_eq_false_2 (_ ∈ ∅)) by set_solver.
  destruct (Py.index _ 1) as [p1|]; [|done]. cbn [mbind res_bind].
  destruct (Py.index _ 2) as [p2|]; [|done]. cbn [mbind res_bind].
  destruct (Py.index _ 3) as [p3|]; [|done]. cbn [mbind res_bind].
  destruct (Py.index _ 4) as [p4|]; [|done]. cbn [mbind res_bind].
  destruct (Py.index _ 5) as [p5|]; [|done]. cbn [mbind res_bind].
  destruct (_is_valid_source chk p5) as [valid|] eqn:Hv; [|done].
  cbn [mbind res_bind]. case_bool_decide as Hskip.
  - destruct valid; cbn [negb]; [|by intros [= <-]].
    destruct (Py.contains _ _); intros [= <-]; [|done].
    rewrite filter_app, filter_cons_False, filter_nil, app_nil_r; [done|].
    simpl. by intros ?.
  - destruct valid; cbn [negb]; [|by intros [= <-]].
    destruct (Py.contains _ _); intros [= <-]; [|done].
    by rewrite filter_app, filter_cons_True, filter_nil.
Qed.

(** X5.  The skip batch acts as a filter on what the parser finds without
    it: when the parser returns for the empty batch, it returns for every
    batch, namely those of the records whose lower-cased manufacturer name
    is not a lower-cased name of the batch, in the same order. *)
Theorem skip_batch_filters_output chk md api country_query skip_batch out :
  _extract_manufacturers chk md api country_query [] = Ok out →
  _extract_manufacturers chk md api country_query skip_batch =
  Ok (filter (fun r => Py.lower (manufacturer r) ∉ existing_lower_of skip_batch) out).
Proof.
  rewrite !extract_manufacturers_loop, existing_lower_of_nil.
  generalize (lines_of md). intros lines.
  change (@nil ManufacturerRecord) with
    (filter (fun r => Py.lower (manufacturer r) ∉ existing_lower_of skip_batch)
       (@nil ManufacturerRecord)) at 2.
  generalize (@nil ManufacturerRecord). revert out.
  induction lines as [|line lines IH]; intros out ms; cbn [extract_lines].
  - by intros [= <-].
  - destruct (extract_line chk api country_query ∅ ms line) as [ms'|] eqn:Hl; [|done].
    cbn [mbind res_bind]. intros Hout.
    rewrite (extract_line_filter _ _ _ _ _ _ _ Hl). cbn [mbind res_bind].
    by apply IH.
Qed.

(** On the sample response. *)
Lemma accepted_rows_all_emitted_witness :
  (length [acme_record; zed_record] ≤ length (lines_of (Some sample_response)))%nat.
Proof.
  apply (accepted_rows_all_emitted lenient_tables (Some sample_response)
           "Metformin" "India" ["known"] [acme_record; zed_record]).
  vm_compute. reflexivity.
Defined.

Lemma emitted_records_well_formed_witness :
  api_name zed_record = "Metformin" ∧
  _is_valid_source lenient_tables (source_url zed_record) = Ok true ∧
  Py.strip (manufacturer zed_record) = manufacturer zed_record ∧
  Py.strip (country zed_record) = country zed_record ∧
  Py.strip (source_name zed_record) = source_name zed_record ∧
  Py.strip (source_url zed_record) = source_url zed_record.
Proof.
  apply (emitted_records_well_formed lenient_tables (Some sample_response)
           "Metformin" "India" ["known"] [acme_record; zed_record] zed_record).
  - vm_compute. reflexivity.
  - constructor. constructor.
Defined.

(** Without a skip batch the sample response yields three records; the
    batch [known] removes the middle one. *)
Lemma skip_batch_filters_output_witness :
  _extract_manufacturers lenient_tables (Some sample_response)
    "Metformin" "India" ["known"] =
  Ok (filter (fun r => Py.lower (manufacturer r) ∉ existing_lower_of ["known"])
        [acme_record;
         {| api_name := "Metformin"; manufacturer := "Known"; country := "India";
            usdmf := "Yes"; cep := "No"; source_name := "FDA";
            source_url := "https://fda.gov/x" |};
         zed_record]).
Proof.
  apply (skip_batch_filters_output lenient_tables (Some sample_response)
           "Metformin" "India" ["known"]).
  vm_compute. reflexivity.
Defined.

End ParserCompleteness.

(** ** More on the trust policy *)

Module SourceAcceptance.
Import Py PyFacts Urllib UrllibFacts TrustFacts StripFacts.

Local Arguments String.append !_ _ / : simpl nomatch.

(** A character that the cleaning steps leave in place. *)
Local Abbreviation stable c :=
  (negb (is_whitespace c) && negb (is_c0_control_or_space c)).

Lemma append_assoc a b c : (a +:+ b) +:+ c = a +:+ b +:+ c.
Proof. induction a as [|x a IH]; simpl; [done|]. by rewrite IH. Qed.

Lemma rstrip_cons_keep p c x :
  p c = false → rstrip_with p (String c x) = String c (rstrip_with p x).
Proof. intros Hc. simpl. destruct (rstrip_with p x); [by rewrite Hc|done]. Qed.

Lemma rstrip_app_keep p pre x :
  all_chars (fun c => negb (p c)) pre = true →
  rstrip_with p (pre +:+ x) = pre +:+ rstrip_with p x.
Proof.
  induction pre as [|c pre IH]; [done|].
  cbn [all_chars]. intros [Hc Hpre]%andb_true_iff. apply negb_true_iff in Hc.
  cbn [String.append]. by rewrite rstrip_cons_keep, IH.
Qed.

Lemma remove_chars_app_keep p pre x :
  all_chars (fun c => negb (p c)) pre = true →
  remove_chars p (pre +:+ x) = pre +:+ remove_chars p x.
Proof.
  induction pre as [|c pre IH]; [done|].
  cbn [all_chars]. intros [Hc Hpre]%andb_true_iff. apply negb_true_iff in Hc.
  cbn [String.append remove_chars]. by rewrite Hc, IH.
Qed.

Lemma all_chars_impl (p q : ascii -> bool) s :
  (∀ c, p c = true → q c = true) → all_chars p s = true → all_chars q s = true.
Proof.
  intros Hpq. induction s as [|c s IH]; [done|].
  cbn [all_chars]. intros [Hc Hs]%andb_true_iff. by rewrite (Hpq _ Hc), IH.
Qed.

Lemma all_chars_app p a b :
  all_chars p (a +:+ b) = all_chars p a && all_chars p b.
Proof.
  induction a as [|c a IH]; [done|]. cbn [String.append all_chars].
  by rewrite IH, andb_assoc.
Qed.

Lemma all_chars_no_char p c s :
  p c = false → all_chars p s = true → has_char c s = false.
Proof.
  intros Hc. induction s as [|d s IH]; [done|].
  cbn [all_chars has_char]. intros [Hd Hs]%andb_true_iff. rewrite (IH Hs).
  destruct (Ascii.eqb d c) eqn:E; [|done].
  apply Ascii.eqb_eq in E as ->. congruence.
Qed.

Lemma alpha_stable c : is_ascii_alpha c = true → stable c = true.
Proof. destruct c as [[] [] [] [] [] [] [] []]; vm_compute; done. Qed.

Lemma plain_stable c : is_plain_host_char c = true → stable c = true.
Proof.
  unfold is_plain_host_char.
  intros [[[[H1 H2]%andb_true_iff _]%andb_true_iff _]%andb_true_iff _]%andb_true_iff.
  by rewrite H1, H2.
Qed.

Lemma stable_not_whitespace c : stable c = true → negb (is_whitespace c) = true.
Proof. by intros [H _]%andb_true_iff. Qed.

Lemma stable_not_c0 c : stable c = true → negb (is_c0_control_or_space c) = true.
Proof. by intros [_ H]%andb_true_iff. Qed.

Lemma stable_not_unsafe c : stable c = true → negb (is_unsafe_url_byte c) = true.
Proof. destruct c as [[] [] [] [] [] [] [] []]; vm_compute; done. Qed.

Lemma delim_stable c : is_netloc_delim c = true → stable c = true.
Proof. destruct c as [[] [] [] [] [] [] [] []]; vm_compute; done. Qed.

(** The cleaning leaves a stable, non-empty front in place. *)
Lemma url_cleaned_stable_front pre x :
  pre ≠ EmptyString →
  all_chars (fun c => stable c) pre = true →
  url_cleaned (pre +:+ x) =
  pre +:+ remove_chars is_unsafe_url_byte (rstrip_with is_whitespace x).
Proof.
  intros Hne Hpre. unfold url_cleaned, strip.
  destruct pre as [|c pre]; [done|].
  cbn [all_chars] in Hpre. apply andb_true_iff in Hpre as [Hc Hpre].
  pose proof (stable_not_whitespace _ Hc) as Hw. apply negb_true_iff in Hw.
  pose proof (stable_not_c0 _ Hc) as H0. apply negb_true_iff in H0.
  cbn [String.append lstrip_with]. rewrite Hw.
  change (String c (pre +:+ x)) with (String c pre +:+ x).
  rewrite rstrip_app_keep.
  2:{ cbn [all_chars]. rewrite Hw. cbn [negb andb].
      eapply all_chars_impl; [|exact Hpre]. apply stable_not_whitespace. }
  cbn [String.append lstrip_with]. rewrite H0.
  change (String c (pre +:+ rstrip_with is_whitespace x))
    with (String c pre +:+ rstrip_with is_whitespace x).
  apply remove_chars_app_keep.
  cbn [all_chars]. rewrite (stable_not_unsafe _ Hc). cbn [andb].
  eapply all_chars_impl; [|exact Hpre]. apply stable_not_unsafe.
Qed.

Section WithCheck.

Variable tables : Urllib.Tables.

(** What matches [accepted_url] is accepted. *)
Lemma accepted_url_valid url :
  accepted_url tables url →
  _is_valid_source tables url = Ok true.
Proof.
  unfold _is_valid_source, accepted_url.
  intros (s0 & nl & rest & Hu & Hs0 & Hnl & Hrest & Hbr & Hnf & Htr).
  destruct (netloc_split_unique nl rest Hnl Hrest) as [Hspan Hrst].
  assert (Hs : split_scheme (url_cleaned url)
               = ("https", String "/" (String "/" (nl +:+ rest)))).
  { rewrite Hu. apply (split_scheme_https s0 _ Hs0). }
  destruct (urlsplit_slashes_cases tables _ _ _ Hs) as [[Hok _]|[_ Hbad]];
    rewrite Hspan in *; [|by destruct Hbad].
  destruct (truthy url) eqn:Hurl; cbn [negb].
  - unfold urlparse. rewrite Hok. cbn [mbind res_bind scheme netloc].
    change (negb (String.eqb (lower "https") "https")) with false.
    cbv iota. f_equal. by apply any_trusted_iff.
  - destruct url; [|done]. by destruct s0.
Qed.

(** X1.  Every url that reads scheme, [://], network location, rest is
    accepted when the scheme is [https] in any letter case, the network
    location is written in plain host characters, passes the NFKC check of
    [urlsplit] (as every ASCII one does) and, lower-cased, is a trusted
    domain or a subdomain of one, and the rest is empty or starts with [/],
    [?] or [#]: no path, query or fragment changes the verdict. *)
Theorem trusted_https_urls_accepted sch nl rest :
  lower sch = "https" →
  all_chars is_plain_host_char nl = true →
  nfkc_accepted tables nl →
  trusted_host (lower nl) →
  (rest = EmptyString ∨ ∃ c r, rest = String c r ∧ is_netloc_delim c = true) →
  _is_valid_source tables (sch +:+ "://" +:+ nl +:+ rest) = Ok true.
Proof.
  intros Hsch Hplain Hnfkc Htrusted Hrest. apply accepted_url_valid.
  exists sch, nl, (remove_chars is_unsafe_url_byte (rstrip_with is_whitespace rest)).
  assert (Halpha : all_chars is_ascii_alpha sch = true).
  { apply alpha_of_lower. by rewrite Hsch. }
  assert (Hfront : all_chars (fun c => stable c) (sch +:+ "://" +:+ nl) = true).
  { rewrite !all_chars_app. apply andb_true_iff. split.
    - eapply all_chars_impl; [|exact Halpha]. apply alpha_stable.
    - apply andb_true_iff. split; [done|].
      eapply all_chars_impl; [|exact Hplain]. apply plain_stable. }
  split_and!; try done.
  - replace (sch +:+ "://" +:+ nl +:+ rest) with ((sch +:+ "://" +:+ nl) +:+ rest)
      by (by rewrite !append_assoc).
    rewrite url_cleaned_stable_front; [|by destruct sch|done].
    by rewrite !append_assoc.
  - eapply all_chars_impl; [|exact Hplain]. unfold is_plain_host_char, no_netloc_delim.
    intros c [[[_ H]%andb_true_iff _]%andb_true_iff _]%andb_true_iff. done.
  - destruct Hrest as [->|(c & r & -> & Hc)]; [by left|]. right.
    pose proof (delim_stable _ Hc) as Hst.
    pose proof (stable_not_whitespace _ Hst) as Hw. apply negb_true_iff in Hw.
    pose proof (stable_not_unsafe _ Hst) as Hun. apply negb_true_iff in Hun.
    rewrite rstrip_cons_keep by done. cbn [remove_chars]. rewrite Hun.
    by eexists _, _.
  - left. split.
    + eapply (all_chars_no_char is_plain_host_char); [|exact Hplain]. done.
    + eapply (all_chars_no_char is_plain_host_char); [|exact Hplain]. done.
Qed.

(** X2.  Whitespace around a url never changes the verdict of the trust
    check, nor whether it raises. *)
Theorem is_valid_source_ignores_padding url :
  _is_valid_source tables (strip url) =
  _is_valid_source tables url.
Proof.
  unfold _is_valid_source. rewrite strip_idemp.
  destruct (strip url) as [|c s] eqn:Hs.
  - cbn [truthy negb]. by destruct (truthy url).
  - cbn [truthy negb]. destruct url; [done|]. done.
Qed.

End WithCheck.

(** An upper-case scheme, a subdomain of [fda.gov], a path and a query. *)
Lemma trusted_https_urls_accepted_witness :
  _is_valid_source lenient_tables
    ("HTTPS" +:+ "://" +:+ "www.FDA.gov" +:+ "/drugs?id=1") = Ok true.
Proof.
  apply (trusted_https_urls_accepted lenient_tables
           "HTTPS" "www.FDA.gov" "/drugs?id=1").
  - reflexivity.
  - reflexivity.
  - by left.
  - exists "fda.gov". split; [by vm_compute|]. right. by exists "www".
  - right. by exists "/"%char, "drugs?id=1".
Defined.

End SourceAcceptance.

(** ** More on the query planner *)

Module SkipListFacts.
Import PlannerFacts StripFacts PyFacts.

Lemma whitespace_lower_char c : Py.is_whitespace (Py.lower_char c) = Py.is_whitespace c.
Proof. destruct c as [[] [] [] [] [] [] [] []]; reflexivity. Qed.

Lemma lstrip_lower s :
  Py.lstrip_with Py.is_whitespace (Py.lower s) =
  Py.lower (Py.lstrip_with Py.is_whitespace s).
Proof.
  induction s as [|c s IH]; [done|].
  cbn [Py.lower Py.lstrip_with]. rewrite whitespace_lower_char.
  by destruct (Py.is_whitespace c).
Qed.

Lemma rstrip_lower s :
  Py.rstrip_with Py.is_whitespace (Py.lower s) =
  Py.lower (Py.rstrip_with Py.is_whitespace s).
Proof.
  induction s as [|c s IH]; [done|].
  cbn [Py.lower Py.rstrip_with]. rewrite IH, whitespace_lower_char.
  destruct (Py.rstrip_with Py.is_whitespace s); [|done].
  by destruct (Py.is_whitespace c).
Qed.

Lemma strip_lower s : Py.strip (Py.lower s) = Py.lower (Py.strip s).
Proof. unfold Py.strip. by rewrite lstrip_lower, rstrip_lower. Qed.

Lemma elem_of_skip_list x existing_records :
  x ∈ skip_list_of existing_records ↔
  ∃ rec, rec ∈ existing_records ∧ skip_name rec = Some x.
Proof.
  unfold skip_list_of, sorted.
  rewrite merge_sort_Permutation, elem_of_elements, elem_of_list_to_set.
  apply list_elem_of_omap.
Qed.

Lemma skip_name_normal rec x :
  skip_name rec = Some x → Py.lower x = x ∧ Py.strip x = x.
Proof.
  unfold skip_name. destruct (rec !! "manufacturer") as [m|]; [|done].
  destruct (Py.truthy m); [|done]. intros [= <-]. split.
  - apply lower_idemp.
  - by rewrite strip_lower, strip_idemp.
Qed.

Lemma elem_of_batches (l : list string) batch x :
  batch ∈ batches_of l → x ∈ batch → x ∈ l.
Proof.
  destruct (decide (l = [])) as [->|Hne].
  { intros ->%list_elem_of_singleton. done. }
  rewrite (batches_of_nonempty _ Hne).
  intros (k & -> & _)%list_elem_of_fmap Hx.
  by eapply subseteq_drop, subseteq_take.
Qed.

Lemma batch_lookup (l : list string) k batch :
  batches_of l !! k = Some batch → batch = take 30 (drop (k * 30) l).
Proof.
  destruct (decide (l = [])) as [->|Hne].
  { destruct k; [|done]. by intros [= <-]. }
  rewrite (batches_of_nonempty _ Hne).
  intros (j & -> & Hj)%list_lookup_fmap_Some.
  by apply lookup_seq in Hj as [-> _].
Qed.

Lemma batches_count (l : list string) :
  length (batches_of l) = Nat.max 1 ((length l + 29) / 30).
Proof.
  destruct (decide (l = [])) as [->|Hne]; [done|].
  rewrite (batches_of_nonempty _ Hne), length_fmap, length_seq.
  destruct l as [|x l]; [done|]. simpl length.
  assert (1 ≤ (S (length l) + 29) / 30)%nat; [|lia].
  apply Nat.div_le_lower_bound; lia.
Qed.

(** X6.  There are as many batches as it takes to hold the skip list 30 at
    a time, and one for the empty list; the k-th batch holds the names from
    position 30k on, 30 of them unless the list ends before; so for a
    non-empty skip list no batch is empty and every batch but the last
    holds exactly 30 names. *)
Theorem batches_full_but_last (skip_list : list string) :
  length (batches_of skip_list) = Nat.max 1 ((length skip_list + 29) / 30) ∧
  (∀ k batch, batches_of skip_list !! k = Some batch →
     length batch = Nat.min 30 (length skip_list - 30 * k) ∧
     (skip_list ≠ [] → batch ≠ []) ∧
     (S k < length (batches_of skip_list) → length batch = 30)%nat).
Proof.
  split; [apply batches_count|].
  intros k batch Hk. pose proof (lookup_lt_Some _ _ _ Hk) as Hlt.
  rewrite batches_count in *.
  apply batch_lookup in Hk as ->. rewrite length_take, length_drop.
  assert (Hpos : skip_list ≠ [] → (0 < length skip_list)%nat).
  { destruct skip_list; [done|]. simpl. lia. }
  assert (Hnil : ∀ l : list string, l = [] → length l = 0%nat) by (by intros ? ->).
  pose proof (Nat.div_mod_eq (length skip_list + 29) 30) as Hd.
  pose proof (Nat.mod_upper_bound (length skip_list + 29) 30).
  split_and!.
  - lia.
  - intros Hne Hempty. apply Hnil in Hempty. apply Hpos in Hne.
    rewrite length_take, length_drop in Hempty. lia.
  - lia.
Qed.

(** A skip list of 65 names: the first batch is full. *)
Lemma batches_full_but_last_witness :
  length (take 30 (replicate 65 "acme")) = 30%nat.
Proof.
  destruct (batches_full_but_last (replicate 65 "acme")) as [_ H].
  destruct (H 0%nat (take 30 (replicate 65 "acme"))) as (_ & _ & Hfull).
  - reflexivity.
  - apply Hfull. vm_compute. lia.
Defined.

(** X7.  The skip list derived from the stored rows holds exactly the
    names [manufacturer.strip().lower()] of the rows whose manufacturer is
    present and not empty; it has no duplicates and ascends; each of its
    names is its own lower-case and its own trimmed form, so that the
    exclusion set the parser builds from a batch of it is the batch. *)
Theorem skip_list_normal_form (existing_records : list StoreRow) :
  (∀ x, x ∈ skip_list_of existing_records ↔
        ∃ rec m, rec ∈ existing_records ∧ rec !! "manufacturer" = Some m ∧
                 m ≠ EmptyString ∧ x = Py.lower (Py.strip m)) ∧
  NoDup (skip_list_of existing_records) ∧
  Sorted String.le (skip_list_of existing_records) ∧
  (∀ x, x ∈ skip_list_of existing_records → Py.lower x = x ∧ Py.strip x = x) ∧
  (∀ batch, batch ∈ batches_of (skip_list_of existing_records) →
            existing_lower_of batch = list_to_set batch).
Proof.
  assert (Hnormal : ∀ x, x ∈ skip_list_of existing_records →
                         Py.lower x = x ∧ Py.strip x = x).
  { intros x (rec & _ & Hrec)%elem_of_skip_list. by eapply skip_name_normal. }
  split_and!; [| | |done|].
  - intros x. rewrite elem_of_skip_list. unfold skip_name. split.
    + intros (rec & Hin & Hx). exists rec.
      destruct (rec !! "manufacturer") as [m|]; [|done]. exists m.
      destruct m; [done|]. by injection Hx as <-.
    + intros (rec & m & Hin & Hm & Hne & ->). exists rec. split; [done|].
      rewrite Hm. by destruct m.
  - unfold skip_list_of, sorted. rewrite merge_sort_Permutation.
    apply NoDup_elements.
  - apply Sorted_merge_sort. apply _.
  - intros batch Hb. unfold existing_lower_of. f_equal.
    rewrite <- (list_fmap_id batch) at 2. apply list_fmap_ext.
    intros _ x Hx%list_elem_of_lookup_2. apply Hnormal. by eapply elem_of_batches.
Qed.

(** Two rows of " Known " and one of "Acme" give the skip list
    [acme; known]. *)
Lemma skip_list_normal_form_witness :
  Py.lower "known" = "known" ∧ Py.strip "known" = "known".
Proof.
  destruct (skip_list_normal_form [known_row; stored_row acme_record; known_row])
    as (_ & _ & _ & Hnormal & _).
  apply Hnormal. vm_compute. constructor. constructor.
Defined.

End SkipListFacts.

(** ** More on the orchestrator *)

Module RunFacts.
Import DiscoveryFacts.

Lemma paced_app ps1 ps2 : paced (ps1 ++ ps2) = paced ps1 ++ paced ps2.
Proof. unfold paced. apply bind_app. Qed.


Section Run.

Context {W : Type}.
Variables (tables : Urllib.Tables)
          (requests_get : string -> string -> W -> option (list StoreRow) * W)
          (requests_post : list Payload -> W -> option (list StoreRow) * W)
          (utcnow : W -> string)
          (self : @Service W).

Local Abbreviation fetch := (_fetch_existing_records requests_get self).
Local Abbreviation insert := (_insert_records requests_post utcnow self).
Local Abbreviation attempt := (_discover_with_groq tables self).
Local Abbreviation loop := (discover_batches tables self).
Local Abbreviation run :=
  (discover tables requests_get requests_post utcnow self).

(** What one attempt does, by what the model answers. *)
Lemma attempt_cases api_name country batch s :
  match groq_client self with
  | None => attempt api_name country batch s = ([], s)
  | Some create =>
      let prompt := prompt_for api_name country batch in
      let reply := (create prompt (world s)).1 in
      let s' := {| world := (create prompt (world s)).2;
                   trace := trace s ++ [EvSleep 1; EvGroq prompt] |} in
      attempt api_name country batch s =
      (match reply with
       | GroqContent (Some text) =>
           match _extract_manufacturers tables
                   (Some text) api_name country batch with
           | Ok manufacturers => manufacturers
           | Raise _ => []
           end
       | _ => []
       end, s')
  end.
Proof.
  unfold _discover_with_groq, _run_groq_extraction, bind, call, ret.
  destruct (groq_client self) as [create|]; [|done].
  cbv zeta. cbn [world trace].
  destruct (create _ _) as [reply w']. cbn [fst snd].
  rewrite <- app_assoc. cbn [app].
  destruct reply as [| |[text|]]; try done.
  destruct text as [|c text]; [done|]. cbn [Py.truthy].
  by destruct (_extract_manufacturers _ _ _ _ _).
Qed.

(** X8.  An attempt yields records only when the model answered with a
    non-empty text and the parser returned for it, and then yields exactly
    the parser's records; an exception of the parser becomes the empty
    result; without a client nothing is called at all; with one, whatever
    it answers, the attempt makes the pause and the one request. *)
Theorem attempt_yields_only_parsed_reply api_name country batch s :
  let found := (attempt api_name country batch s).1 in
  let s' := (attempt api_name country batch s).2 in
  let prompt := prompt_for api_name country batch in
  (found ≠ [] →
   ∃ create text,
     groq_client self = Some create ∧
     (create prompt (world s)).1 = GroqContent (Some text) ∧
     text ≠ EmptyString ∧
     _extract_manufacturers tables (Some text) api_name country batch
     = Ok found) ∧
  (∀ create text e,
     groq_client self = Some create →
     (create prompt (world s)).1 = GroqContent (Some text) →
     _extract_manufacturers tables (Some text) api_name country batch
     = Raise e →
     found = []) ∧
  (groq_client self = None → found = [] ∧ s' = s) ∧
  (∀ create,
     groq_client self = Some create →
     trace s' = trace s ++ [EvSleep 1; EvGroq prompt] ∧
     world s' = (create prompt (world s)).2).
Proof.
  cbv zeta. pose proof (attempt_cases api_name country batch s) as H.
  destruct (groq_client self) as [create|]; cbv zeta in H; rewrite H; cbn [fst snd].
  - split_and!; [| |done|by intros ? [= <-]].
    + intros Hne. exists create.
      destruct (create _ _).1 as [| |[text|]]; try done.
      exists text. split_and!; try done.
      * intros ->. done.
      * by destruct (_extract_manufacturers _ _ _ _ _).
    + intros ? text e [= <-] -> Hraise. by rewrite Hraise.
  - by split_and!.
Qed.

Lemma attempt_paced api_name country batch s :
  trace (attempt api_name country batch s).2 =
  trace s ++ paced (model_prompts self api_name country [batch]).
Proof.
  pose proof (attempt_cases api_name country batch s) as H.
  unfold model_prompts. destruct (groq_client self) as [create|];
    cbv zeta in H; rewrite H; cbn [snd trace].
  - done.
  - by rewrite app_nil_r.
Qed.

Lemma model_prompts_cons api_name country batch batches :
  model_prompts self api_name country (batch :: batches) =
  model_prompts self api_name country [batch] ++
  model_prompts self api_name country batches.
Proof. unfold model_prompts. by destruct (groq_client self). Qed.

(** The outside calls of the loop: a pause and a request for each of the
    first [k] batches. *)
Lemma loop_paced api_name country batches s :
  ∃ k, (k ≤ length batches)%nat ∧
       trace (loop api_name country [] batches s).2 =
       trace s ++ paced (model_prompts self api_name country (take k batches)) ∧
       ((loop api_name country [] batches s).1 = [] → k = length batches) ∧
       (batches ≠ [] → 1 ≤ k)%nat.
Proof.
  revert s. induction batches as [|batch batches IH]; intros s.
  { exists 0%nat. split_and!; try done. cbn [discover_batches].
    unfold ret, model_prompts. cbn [snd take]. destruct (groq_client self);
      by rewrite app_nil_r. }
  rewrite loop_step. pose proof (attempt_paced api_name country batch s) as Hb.
  destruct (attempt api_name country batch s) as [found s1]. cbn [fst snd] in *.
  destruct found as [|r found]; cbv beta iota.
  - destruct (IH s1) as (k & Hk & Ht & Hall & _). exists (S k).
    split_and!; [simpl; lia| | |lia].
    + rewrite Ht, Hb, <- app_assoc, <- paced_app. cbn [take].
      by rewrite (model_prompts_cons _ _ batch (take k batches)).
    + intros Hnil. by rewrite (Hall Hnil).
  - exists 1%nat. split_and!; [simpl; lia| |done|lia].
    cbn [snd take]. by rewrite take_0.
Qed.

(** What the loop returns was parsed from a model answer for one of the
    batches. *)
Lemma loop_found api_name country batches s r :
  r ∈ (loop api_name country [] batches s).1 →
  ∃ batch text out,
    batch ∈ batches ∧
    _extract_manufacturers tables (Some text) api_name country batch
    = Ok out ∧
    r ∈ out.
Proof.
  revert s. induction batches as [|batch batches IH]; intros s.
  { cbn [discover_batches]. unfold ret. cbn [fst]. by intros ?%elem_of_nil. }
  rewrite loop_step. pose proof (attempt_cases api_name country batch s) as Hb.
  assert (Hrest : ∀ s1, r ∈ (loop api_name country [] batches s1).1 →
            ∃ batch0 text out, batch0 ∈ batch :: batches ∧
              _extract_manufacturers tables (Some text)
                api_name country batch0 = Ok out ∧ r ∈ out).
  { intros s1 Hr. destruct (IH _ Hr) as (b & text & out & Hin & Hout & Hrout).
    exists b, text, out. split_and!; [by right|done..]. }
  destruct (groq_client self) as [create|]; cbv zeta in Hb; rewrite Hb;
    cbn [fst snd]; [|apply Hrest].
  destruct (create _ _).1 as [| |[text|]]; try apply Hrest.
  destruct (_extract_manufacturers tables (Some text)
              api_name country batch) as [[|r' out]|] eqn:Hout; try apply Hrest.
  cbn [fst]. intros Hr. exists batch, text, (r' :: out).
  split_and!; [by left|done..].
Qed.

(** X10.  The outside calls of the batch loop are exactly a one-second
    pause followed by one model request for each batch tried, in batch
    order, and nothing else; the batches tried are the first [k] of them,
    all of them when nothing was found, and none without a client. *)
Theorem every_request_follows_a_pause api_name country batches s :
  ∃ k, (k ≤ length batches)%nat ∧
       trace (loop api_name country [] batches s).2 =
       trace s ++ paced (model_prompts self api_name country (take k batches)) ∧
       ((loop api_name country [] batches s).1 = [] → k = length batches) ∧
       (groq_client self = None →
        trace (loop api_name country [] batches s).2 = trace s).
Proof.
  destruct (loop_paced api_name country batches s) as (k & Hk & Ht & Hall & _).
  exists k. split_and!; try done.
  intros Hnone. rewrite Ht. unfold model_prompts. rewrite Hnone.
  apply app_nil_r.
Qed.

Lemma fetch_events_quiet evs :
  Forall (fun e => is_fetch e = true) evs →
  omap groq_prompt evs = [] ∧
  Forall (fun e => is_insert e = false ∧ records_of e = []) evs.
Proof.
  induction 1 as [|e evs He _ [IH1 IH2]]; [done|].
  destruct e; try done. all: split; [done|by constructor].
Qed.

(** The outside calls of a non-empty insert start with an insert call that
    carries the records, and all carry them. *)
Lemma insert_events records source_label s :
  records ≠ [] →
  ∃ e evs,
    trace (insert records source_label s).2 = trace s ++ e :: evs ∧
    is_insert e = true ∧ records_of e = records ∧
    Forall (fun e' => groq_prompt e' = None ∧ inserts_exactly records e') (e :: evs).
Proof.
  intros Hne. unfold _insert_records, bind, call, ret.
  destruct records as [|r records]; [done|].
  assert (Hpayload : ∀ ts,
    payload_record <$>
      ((fun rec => {| payload_record := rec; source_file := source_label;
                      imported_at := ts |}) <$> (r :: records)) = r :: records).
  { intros ts. rewrite <- list_fmap_compose. apply list_fmap_id. }
  destruct (_use_supabase self).
  - destruct (requests_post _ _) as [[data|] w']; cbn [snd trace].
    + eexists _, []. split_and!; [done|done|apply Hpayload|].
      repeat constructor. apply Hpayload.
    + destruct (insert_records _ _ _ _) as [res w'']; cbn [snd trace world].
      rewrite <- app_assoc. eexists _, [_]. split_and!; [done|done|apply Hpayload|].
      repeat constructor. apply Hpayload.
  - destruct (insert_records _ _ _ _) as [res w'']; cbn [snd trace].
    eexists _, []. split_and!; try done. by repeat constructor.
Qed.

(** The outside calls of a run on valid inputs: the first fetch, the paced
    requests of the loop, then the insert of what the loop found, if
    anything, and the second fetch. *)
Lemma run_trace api_name country s :
  trimmed api_name ≠ EmptyString → trimmed country ≠ EmptyString →
  let a := trimmed api_name in
  let c := trimmed country in
  let existing := (fetch a c s).1 in
  let batches := batches_of (skip_list_of existing) in
  let found := (loop a c [] batches (fetch a c s).2).1 in
  ∃ evs1 k evs3,
    trace (run api_name country s).2 =
      trace s ++ evs1 ++ paced (model_prompts self a c (take k batches)) ++ evs3 ∧
    Forall (fun e => is_fetch e = true) evs1 ∧
    (1 ≤ k ≤ length batches)%nat ∧
    Forall (fun e => groq_prompt e = None ∧ inserts_exactly found e) evs3 ∧
    (found = [] → Forall (fun e => is_fetch e = true) evs3) ∧
    (found ≠ [] →
     ∃ e evs', evs3 = e :: evs' ∧ is_insert e = true ∧ records_of e = found).
Proof.
  intros Ha Hc. rewrite (discover_valid _ _ _ _ _ _ _ _ Ha Hc). cbv zeta.
  set (a := trimmed api_name). set (c := trimmed country).
  destruct (fetch_trace requests_get self a c s) as (evs1 & Ht1 & Hf1).
  destruct (fetch a c s) as [existing s1]. cbn [fst snd] in *.
  set (batches := batches_of (skip_list_of existing)).
  destruct (loop_paced a c batches s1) as (k & Hk & Ht2 & _ & Hk1).
  assert (Hbatches : batches ≠ []).
  { unfold batches, batches_of. by destruct (_ <$> _). }
  specialize (Hk1 Hbatches).
  destruct (loop a c [] batches s1) as [found s2]. cbn [fst snd] in *.
  exists evs1, k.
  assert (Hfetch : ∀ st, ∃ evs,
             trace (fetch a c st).2 = trace st ++ evs ∧
             Forall (fun e => is_fetch e = true) evs ∧
             Forall (fun e => groq_prompt e = None ∧ inserts_exactly found e) evs).
  { intros st. destruct (fetch_trace requests_get self a c st) as (evs & Ht & Hf).
    exists evs. split_and!; [done..|]. eapply Forall_impl; [exact Hf|].
    by intros [] ?. }
  destruct found as [|r found]; cbn [snd].
  - destruct (Hfetch s2) as (evs3 & Ht3 & Hf3 & Hq3). exists evs3.
    rewrite Ht3, Ht2, Ht1, <- !app_assoc. by split_and!.
  - destruct (insert_events (r :: found) "groq_discovery" s2)
      as (e & evs & Hti & Hie & Hre & Hfi); [done|].
    destruct (Hfetch (insert (r :: found) "groq_discovery" s2).2)
      as (evs3 & Ht3 & Hf3 & Hq3).
    exists (e :: evs ++ evs3).
    rewrite Ht3, Hti, Ht2, Ht1, <- !app_assoc. cbn [app].
    split_and!; try done.
    + rewrite app_comm_cons. by apply Forall_app.
    + intros _. by exists e, (evs ++ evs3).
Qed.

(** X9.  Every record a run hands to the store, by REST or through the
    injected service, carries the trimmed ingredient name, a source url that
    passes the trust check and a country field that contains the trimmed
    country, and its lower-cased manufacturer name is outside one of the
    batches of the skip list. *)
Theorem stored_records_storable api_name country s :
  trimmed api_name ≠ EmptyString → trimmed country ≠ EmptyString →
  let a := trimmed api_name in
  let c := trimmed country in
  let batches := batches_of (skip_list_of (fetch a c s).1) in
  ∃ evs, trace (run api_name country s).2 = trace s ++ evs ∧
         ∀ e r, e ∈ evs → r ∈ records_of e →
                storable tables a c batches r.
Proof.
  intros Ha Hc. cbv zeta.
  destruct (run_trace api_name country s Ha Hc)
    as (evs1 & k & evs3 & Ht & Hf1 & _ & Hf3 & _). cbv zeta in Hf3.
  eexists. split; [exact Ht|]. intros e r He Hr.
  assert (Hfound : r ∈ (loop (trimmed api_name) (trimmed country) []
                          (batches_of (skip_list_of
                             (fetch (trimmed api_name) (trimmed country) s).1))
                          (fetch (trimmed api_name) (trimmed country) s).2).1).
  { apply elem_of_app in He as [He|He].
    { destruct (fetch_events_quiet _ Hf1) as [_ Hq].
      rewrite Forall_forall in Hq. destruct (Hq _ He) as [_ Hnil].
      rewrite Hnil in Hr. by apply elem_of_nil in Hr. }
    apply elem_of_app in He as [He|He].
    { unfold paced in He. apply list_elem_of_bind in He as (p & He & _).
      apply elem_of_cons in He as [->|He]; [by apply elem_of_nil in Hr|].
      apply list_elem_of_singleton in He as ->. by apply elem_of_nil in Hr. }
    rewrite Forall_forall in Hf3. destruct (Hf3 _ He) as [_ Hex].
    destruct e; simpl in Hex, Hr; try (by apply elem_of_nil in Hr);
      by rewrite <- Hex. }
  destruct (loop_found _ _ _ _ _ Hfound) as (batch & text & out & Hb & Hout & Hrout).
  destruct (ParserFacts.extract_manufacturers_accepted _ _ _ _ _ _ _ Hout Hrout)
    as (line & _ & Hacc).
  destruct Hacc as [_ _ Hapi _ Hskip _ _ _ _ _ Hv Hmatch].
  split_and!; try done. exists batch. split; [done|].
  intros Hin.
  apply (proj1 (ParserClaims.not_in_existing_lower _ _) Hskip _ Hin).
  by rewrite PyFacts.lower_idemp.
Qed.

(** X12.  A run on valid inputs calls the store to insert exactly when the
    batch loop found something: with nothing found no insert call is made
    and the result reports no new records and a count of 0; otherwise an
    insert call is made, and every insert call carries exactly the records
    the loop found. *)
Theorem insert_exactly_when_found api_name country s :
  trimmed api_name ≠ EmptyString → trimmed country ≠ EmptyString →
  let a := trimmed api_name in
  let c := trimmed country in
  let existing := (fetch a c s).1 in
  let found := (loop a c [] (batches_of (skip_list_of existing)) (fetch a c s).2).1 in
  ∃ evs, trace (run api_name country s).2 = trace s ++ evs ∧
    (∀ e, e ∈ evs → is_insert e = true → records_of e = found) ∧
    (found = [] →
     Forall (fun e => is_insert e = false) evs ∧
     ∃ all, (run api_name country s).1 = Success existing [] all 0) ∧
    (found ≠ [] → ∃ e, e ∈ evs ∧ is_insert e = true).
Proof.
  intros Ha Hc. cbv zeta.
  destruct (run_trace api_name country s Ha Hc)
    as (evs1 & k & evs3 & Ht & Hf1 & _ & Hf3 & Hnone & Hsome). cbv zeta in *.
  destruct (fetch_events_quiet _ Hf1) as [_ Hq1].
  assert (Hpaced : ∀ ps, Forall (fun e => is_insert e = false) (paced ps)).
  { intros ps. induction ps as [|p ps IH]; [constructor|].
    by do 2 constructor. }
  eexists. split; [exact Ht|]. split_and!.
  - intros e He Hins.
    apply elem_of_app in He as [He|He].
    { rewrite Forall_forall in Hq1. destruct (Hq1 _ He). congruence. }
    apply elem_of_app in He as [He|He].
    { pose proof (Hpaced (model_prompts self (trimmed api_name) (trimmed country)
                   (take k (batches_of (skip_list_of
                      (fetch (trimmed api_name) (trimmed country) s).1))))) as Hp.
      rewrite Forall_forall in Hp. specialize (Hp _ He). congruence. }
    rewrite Forall_forall in Hf3. destruct (Hf3 _ He) as [_ Hex].
    by destruct e.
  - intros Hnil. split.
    + apply Forall_app. split.
      { eapply Forall_impl; [exact Hq1|]. by intros ? []. }
      apply Forall_app. split; [apply Hpaced|].
      destruct (fetch_events_quiet _ (Hnone Hnil)) as [_ Hq3].
      eapply Forall_impl; [exact Hq3|]. by intros ? [].
    + rewrite (discover_valid _ _ _ _ _ _ _ _ Ha Hc). cbv zeta. rewrite Hnil.
      by eexists.
  - intros Hne. destruct (Hsome Hne) as (e & evs' & -> & Hins & _).
    exists e. split; [|done].
    do 2 (apply elem_of_app; right). by left.
Qed.


(** X15.  A run depends on its inputs only through their trimmed forms:
    padding, and [None] in place of the empty string, change nothing. *)
Theorem discover_ignores_padding api_name country s :
  run api_name country s =
  run (Some (trimmed api_name)) (Some (trimmed country)) s.
Proof.
  assert (Hidem : ∀ x, Py.strip (trimmed x) = trimmed x).
  { intros x. apply StripFacts.strip_idemp. }
  unfold discover.
  change (default EmptyString (Some (trimmed api_name))) with (trimmed api_name).
  change (default EmptyString (Some (trimmed country))) with (trimmed country).
  by rewrite !Hidem.
Qed.

(** X13.  What [_insert_records] sends out.  For no records, nothing.  A
    REST post is made only when REST is configured, and carries one row per
    record, in order, each with the label and the time read on entry; when
    it answers, the count reported is the number of rows it returned.  The
    injected service is asked only when REST is not configured or failed,
    and then receives the records and the label unchanged. *)
Theorem insert_payload_and_fallback records source_label s :
  let payload := payload_of source_label (utcnow (world s)) records in
  ∃ evs, trace (insert records source_label s).2 = trace s ++ evs ∧
    (records = [] →
     insert records source_label s = ({| inserted := 0; rows := [] |}, s)) ∧
    (∀ e, e ∈ evs →
       (e = EvRestPost payload ∧ _use_supabase self = true) ∨
       (e = EvServiceInsert records source_label ∧
        (_use_supabase self = false ∨
         (requests_post payload (world s)).1 = None))) ∧
    payload_record <$> payload = records ∧
    Forall (fun p => source_file p = source_label ∧
                     imported_at p = utcnow (world s)) payload ∧
    (records ≠ [] → _use_supabase self = true →
     ∀ data, (requests_post payload (world s)).1 = Some data →
             (insert records source_label s).1 =
             {| inserted := Z.of_nat (length data); rows := data |}).
Proof.
  cbv zeta.
  assert (Hrec : payload_record <$> payload_of source_label (utcnow (world s)) records
                 = records).
  { unfold payload_of. rewrite <- list_fmap_compose. apply list_fmap_id. }
  assert (Htags : Forall (fun p => source_file p = source_label ∧
                                   imported_at p = utcnow (world s))
                    (payload_of source_label (utcnow (world s)) records)).
  { unfold payload_of. apply Forall_fmap, Forall_forall. by intros r _. }
  unfold _insert_records, bind, call, ret.
  fold (payload_of source_label (utcnow (world s)) records).
  destruct records as [|r records].
  { exists []. rewrite app_nil_r. split_and!; try done. by intros e ?%elem_of_nil. }
  destruct (_use_supabase self).
  - destruct (requests_post _ _) as [[data|] w'] eqn:Hpost; cbn [fst snd trace world].
    + eexists [_]. split_and!; try done.
      * intros e ->%list_elem_of_singleton. by left.
      * by intros _ _ data' [= <-].
    + destruct (insert_records _ _ _ _) as [res w'']; cbn [fst snd trace world].
      rewrite <- app_assoc. eexists [_; _]. split_and!; try done.
      intros e [->|He]%elem_of_cons; [by left|].
      apply list_elem_of_singleton in He as ->.
      right. split; [done|by right].
  - destruct (insert_records _ _ _ _) as [res w'']; cbn [fst snd trace world].
    eexists [_]. split_and!; try done.
    intros e ->%list_elem_of_singleton. right. split; [done|by left].
Qed.

End Run.

(** The sample service answers with the sample response, which the parser
    turns into the two records the attempt yields. *)
Lemma attempt_yields_only_parsed_reply_witness :
  ∃ create text,
    groq_client sample_service = Some create ∧
    (create (prompt_for "Metformin" "India" ["known"]) (world initial_state)).1
    = GroqContent (Some text) ∧
    text ≠ EmptyString ∧
    _extract_manufacturers lenient_tables (Some text)
      "Metformin" "India" ["known"]
    = Ok (_discover_with_groq lenient_tables sample_service
            "Metformin" "India" ["known"] initial_state).1.
Proof.
  destruct (attempt_yields_only_parsed_reply lenient_tables sample_service
              "Metformin" "India" ["known"] initial_state) as (H & _).
  apply H. vm_compute. discriminate.
Defined.

(** Without a client the loop leaves the trace as it was. *)
Lemma every_request_follows_a_pause_witness :
  trace (discover_batches lenient_tables unconfigured_service
           "Metformin" "India" [] [["known"]] initial_state).2
  = trace initial_state.
Proof.
  destruct (every_request_follows_a_pause lenient_tables
              unconfigured_service "Metformin" "India" [["known"]] initial_state)
    as (k & _ & _ & _ & H).
  apply H. reflexivity.
Defined.

(** What the sample run stores is storable with respect to the one batch
    [known]. *)
Lemma stored_records_storable_witness :
  ∃ evs,
    trace (sample_discover sample_service (Some " Metformin ") (Some "India")).2
    = trace initial_state ++ evs ∧
    ∀ e r, e ∈ evs → r ∈ records_of e →
           storable lenient_tables "Metformin" "India" [["known"]] r.
Proof.
  assert (Ha : trimmed (Some " Metformin ") ≠ EmptyString) by (vm_compute; discriminate).
  assert (Hc : trimmed (Some "India") ≠ EmptyString) by (vm_compute; discriminate).
  exact (stored_records_storable lenient_tables rest_down_get
           rest_down_post fixed_clock sample_service
           (Some " Metformin ") (Some "India") initial_state Ha Hc).
Defined.

(** The sample run finds two records, so it makes an insert call. *)
Lemma insert_exactly_when_found_witness :
  ∃ evs,
    trace (sample_discover sample_service (Some " Metformin ") (Some "India")).2
    = trace initial_state ++ evs ∧
    ∃ e, e ∈ evs ∧ is_insert e = true.
Proof.
  assert (Ha : trimmed (Some " Metformin ") ≠ EmptyString) by (vm_compute; discriminate).
  assert (Hc : trimmed (Some "India") ≠ EmptyString) by (vm_compute; discriminate).
  destruct (insert_exactly_when_found lenient_tables rest_down_get
              rest_down_post fixed_clock sample_service
              (Some " Metformin ") (Some "India") initial_state Ha Hc)
    as (evs & Ht & _ & _ & Hsome).
  exists evs. split; [exact Ht|]. apply Hsome. vm_compute. discriminate.
Defined.


(** No records, no call. *)
Lemma insert_payload_and_fallback_witness :
  _insert_records rest_down_post fixed_clock sample_service [] "groq_discovery"
    initial_state
  = ({| inserted := 0; rows := [] |}, initial_state).
Proof.
  destruct (insert_payload_and_fallback rest_down_post fixed_clock sample_service
              [] "groq_discovery" initial_state) as (evs & _ & H & _).
  apply H. reflexivity.
Defined.

End RunFacts.

(** ** Construction of the service *)

Module InitFacts.
Import PyFacts StripFacts.

Lemma rstrip_not_endswith p c s :
  p c = true → Py.endswith (Py.rstrip_with p s) (String c EmptyString) = false.
Proof.
  intros Hc. destruct (Py.endswith _ _) eqn:E; [|done].
  apply endswith_iff in E as [a Ha]. apply rstrip_no_tail in Ha. congruence.
Qed.

Section Init.

Context {W : Type}.
Variable GroqClient : string -> Prompt -> W -> GroqReply * W.
Variable manufacturer_service : @ManufacturerService W.

(** X14.  What [__init__] makes of the environment.  The REST interface is
    used exactly when the url, with its trailing slashes removed, is not
    empty and a key is set: the service key when it is set and not empty,
    else the anonymous key.  The stored url never ends with a slash.  The
    headers carry that key, also as bearer token.  A model client exists
    exactly when the model key is set and not empty. *)
Theorem init_reads_environment (environ : gmap string string) :
  let a := __init__ GroqClient manufacturer_service environ in
  (_use_supabase (service_of a) = true ↔
   attr_supabase_url a ≠ EmptyString ∧
   ∃ key, chosen_key environ = Some key ∧ key ≠ EmptyString) ∧
  Py.endswith (attr_supabase_url a) "/" = false ∧
  (∀ h, attr_supabase_headers a = Some h →
        ∃ key, chosen_key environ = Some key ∧ key ≠ EmptyString ∧
               h !! "apikey" = Some key ∧
               h !! "Authorization" = Some ("Bearer " +:+ key)) ∧
  (∀ key, environ !! "SUPABASE_SERVICE_KEY" = Some key → key ≠ EmptyString →
          attr_supabase_key a = Some key) ∧
  (is_Some (groq_client (service_of a)) ↔
   ∃ key, environ !! "GROQ_API_KEY" = Some key ∧ key ≠ EmptyString).
Proof.
  cbv zeta. unfold __init__, service_of, _use_supabase, chosen_key.
  cbn [attr_supabase_url attr_supabase_headers attr_supabase_key attr_groq_client
       supabase_headers supabase_url groq_client].
  set (url := Py.rstrip_with is_slash (default EmptyString (environ !! "SUPABASE_URL"))).
  set (key := py_or (environ !! "SUPABASE_SERVICE_KEY") (environ !! "SUPABASE_ANON_KEY")).
  split_and!.
  - destruct key as [k|]; [|split; [done|by intros (_ & ? & ? & _)]].
    destruct url as [|c url']; cbn [Py.truthy andb];
      [split; [done|by intros [? _]]|].
    destruct k as [|d k]; cbn [Py.truthy mbind option_bind];
      [split; [done|by intros (_ & ? & [= <-] & ?)]|].
    split; [|done]. intros _. split; [done|]. by eexists.
  - apply rstrip_not_endswith. reflexivity.
  - intros h. destruct key as [k|]; [|done].
    destruct (Py.truthy url && Py.truthy k) eqn:E; [|done].
    intros [= <-]. exists k. apply andb_true_iff in E as [_ Hk].
    split_and!; try done. by destruct k.
  - intros k Hk Hne. unfold key, py_or. rewrite Hk. by destruct k.
  - destruct (environ !! "GROQ_API_KEY") as [[|c k]|]; cbn [Py.truthy].
    + split; [by intros [? ?]|by intros (? & [= <-] & ?)].
    + split; [intros _; by eexists|by eexists].
    + split; [by intros [? ?]|by intros (? & ? & _)].
Qed.

End Init.

(** With the sample environment: the REST interface is used, with the
    anonymous key, the service key being empty. *)
Lemma init_reads_environment_witness :
  _use_supabase (service_of (__init__ sample_client table_service sample_environ))
  = true.
Proof.
  apply (init_reads_environment sample_client table_service sample_environ).
  split.
  - vm_compute. discriminate.
  - exists "anon-key". split; [reflexivity|discriminate].
Defined.

End InitFacts.

(** ** Errors of the trust check, and letter case in the parser *)

Module CaseAndErrors.
Import PyFacts CharFacts ParserFacts.

(** X16.  The one exception the trust check can raise is [ValueError], and
    only for a url that holds a square bracket or a character beyond ASCII:
    for every ASCII url without a square bracket it returns a verdict. *)
Theorem is_valid_source_raises_only_off_plain_ascii chk url :
  ((∃ verdict, _is_valid_source chk url = Ok verdict) ∨
   (_is_valid_source chk url = Raise ValueError ∧ ¬ plain_ascii url)) ∧
  (plain_ascii url → ∃ verdict, _is_valid_source chk url = Ok verdict).
Proof.
  assert (H : (∃ verdict, _is_valid_source chk url = Ok verdict) ∨
              (_is_valid_source chk url = Raise ValueError ∧ ¬ plain_ascii url)).
  { destruct (_is_valid_source chk url) as [verdict|e] eqn:E; [left; by eexists|].
    right. by destruct (is_valid_source_raise _ _ _ E) as [-> ?]. }
  split; [done|]. intros Hplain. by destruct H as [?|[_ ?]].
Qed.

(** An ASCII url without brackets gets a verdict. *)
Lemma is_valid_source_raises_only_off_plain_ascii_witness :
  ∃ verdict,
    _is_valid_source lenient_tables "http://fda.gov" = Ok verdict.
Proof.
  apply (is_valid_source_raises_only_off_plain_ascii lenient_tables
           "http://fda.gov").
  split; [reflexivity|]. split; reflexivity.
Defined.

Lemma existing_lower_of_lower skip_batch :
  existing_lower_of (Py.lower <$> skip_batch) = existing_lower_of skip_batch.
Proof.
  unfold existing_lower_of. rewrite <- list_fmap_compose. f_equal.
  apply list_fmap_ext. intros _ x _. apply lower_idemp.
Qed.

Lemma extract_line_lower_country chk api country_query existing_lower manufacturers line :
  extract_line chk api (Py.lower country_query) existing_lower manufacturers line =
  extract_line chk api country_query existing_lower manufacturers line.
Proof. unfold extract_line. by rewrite lower_idemp. Qed.

(** X17.  The parser matches the requested country and the names of the
    skip batch without regard to letter case: lower-casing either changes
    nothing of what it returns or raises. *)
Theorem parser_ignores_case_of_query chk md api country_query skip_batch :
  _extract_manufacturers chk md api (Py.lower country_query) (Py.lower <$> skip_batch) =
  _extract_manufacturers chk md api country_query skip_batch.
Proof.
  rewrite !extract_manufacturers_loop, existing_lower_of_lower.
  generalize (lines_of md) (@nil ManufacturerRecord). intros lines.
  induction lines as [|line lines IH]; intros manufacturers; [done|].
  cbn [extract_lines]. rewrite extract_line_lower_country.
  destruct (extract_line _ _ _ _ _ _); [|done]. apply IH.
Qed.

End CaseAndErrors.
